(** * Aadhaar Lifecycle Signal System: the analytical core of [process_data.py]

    A shallow embedding of the four core operations of [process_data.py]
    (feature_engineering, calculate_district_metrics, generate_forecast,
    run_backtest_validation) together with the properties the specification
    states about them.

    Modelling conventions.

    - Integer counters ([int64] columns read from CSV) are [Z]; the counts
      are far below [2^63], so the machine additions coincide with [Z]'s.
    - A pandas / numpy [float64] is a value of [fl]: a rational, or one of
      the IEEE specials [+inf], [-inf], [NaN].  Finite arithmetic is exact
      (rounding to 53 bits and overflow past the largest double are
      abstracted, and there is no negative zero); everything the code's control
      flow depends on -- division by zero, propagation of [NaN], comparisons
      with [NaN] being false, [int()] refusing [NaN] and infinities -- is
      kept.  Module [Binary64] re-runs the documented forecast
      example in IEEE binary64 itself.
    - A Python exception is a value [Raise e] of the [result] type.
    - Dates are day numbers in [Z]; [NaT] is [None]. *)

From Stdlib Require Import ZArith QArith SpecFloat Qreduction Qround Bool List String Ascii
  Lia Lqa
  Permutation Sorted.
Import ListNotations.

Local Open Scope Z_scope.

(** ** Exceptions *)

Inductive exn : Type :=
| KeyError
| ValueError
| OverflowError
| TypeError.

Inductive result (A : Type) : Type :=
| Ok (a : A)
| Raise (e : exn).

Arguments Ok {A} a.
Arguments Raise {A} e.

Definition bind {A B : Type} (r : result A) (k : A -> result B) : result B :=
  match r with
  | Ok a => k a
  | Raise e => Raise e
  end.

Notation "x <- r ;; k" := (bind r (fun x => k))
  (at level 61, r at next level, right associativity).

Fixpoint mapM {A B : Type} (f : A -> result B) (l : list A) : result (list B) :=
  match l with
  | [] => Ok []
  | a :: l' => b <- f a ;; bs <- mapM f l' ;; Ok (b :: bs)
  end.

(** ** Floating-point values *)

Module Float.

Inductive fl : Type :=
| Fin (q : Q)
| PInf
| NInf
| NaN.

Definition Qltb (a b : Q) : bool := negb (Qle_bool b a).
Definition Qis0 (a : Q) : bool := Qeq_bool a 0.
Definition Qpos (a : Q) : bool := Qltb 0 a.

Definition of_Z (z : Z) : fl := Fin (inject_Z z).
Definition of_nat (n : nat) : fl := of_Z (Z.of_nat n).

Definition zero : fl := Fin 0.
Definition one : fl := Fin 1.

Definition is_nan (x : fl) : bool :=
  match x with NaN => true | _ => false end.

Definition fneg (x : fl) : fl :=
  match x with
  | Fin a => Fin (Qred (- a))
  | PInf => NInf
  | NInf => PInf
  | NaN => NaN
  end.

Definition fadd (x y : fl) : fl :=
  match x, y with
  | NaN, _ | _, NaN => NaN
  | Fin a, Fin b => Fin (Qplus' a b)
  | PInf, NInf | NInf, PInf => NaN
  | PInf, _ | _, PInf => PInf
  | NInf, _ | _, NInf => NInf
  end.

Definition fsub (x y : fl) : fl := fadd x (fneg y).

(** [inf * 0] is [NaN]; otherwise the sign rule. *)
Definition inf_signed (positive : bool) : fl := if positive then PInf else NInf.

Definition fmul (x y : fl) : fl :=
  match x, y with
  | NaN, _ | _, NaN => NaN
  | Fin a, Fin b => Fin (Qmult' a b)
  | PInf, Fin b | Fin b, PInf => if Qis0 b then NaN else inf_signed (Qpos b)
  | NInf, Fin b | Fin b, NInf => if Qis0 b then NaN else inf_signed (negb (Qpos b))
  | PInf, PInf | NInf, NInf => PInf
  | PInf, NInf | NInf, PInf => NInf
  end.

(** True division as numpy performs it: no exception, [x/0] is an infinity
    of the sign of [x] (the zero divisors of this program are all [+0]),
    [0/0] and [inf/inf] are [NaN]. *)
Definition fdiv (x y : fl) : fl :=
  match x, y with
  | NaN, _ | _, NaN => NaN
  | Fin a, Fin b =>
      if Qis0 b then (if Qis0 a then NaN else inf_signed (Qpos a))
      else Fin (Qred (a / b))
  | Fin _, (PInf | NInf) => Fin 0
  | PInf, Fin b => inf_signed (Qle_bool 0 b)
  | NInf, Fin b => inf_signed (negb (Qle_bool 0 b))
  | (PInf | NInf), (PInf | NInf) => NaN
  end.

(** Comparisons: anything involving [NaN] is [false]. *)
Definition flt (x y : fl) : bool :=
  match x, y with
  | NaN, _ | _, NaN => false
  | Fin a, Fin b => Qltb a b
  | NInf, NInf => false
  | NInf, _ => true
  | _, NInf => false
  | PInf, _ => false
  | Fin _, PInf => true
  end.

Definition feqb (x y : fl) : bool :=
  match x, y with
  | Fin a, Fin b => Qeq_bool a b
  | PInf, PInf | NInf, NInf => true
  | _, _ => false
  end.

Definition fle (x y : fl) : bool := flt x y || feqb x y.
Definition fgt (x y : fl) : bool := flt y x.
Definition fge (x y : fl) : bool := fle y x.

(** Python's builtin [min(a, b)] and [max(a, b)]: the first argument is
    kept unless the second compares strictly better, so a [NaN] first
    argument survives. *)
Definition py_min (a b : fl) : fl := if flt b a then b else a.
Definition py_max (a b : fl) : fl := if fgt b a then b else a.

(** [Series.clip(lower, upper)]: [NaN] stays [NaN]. *)
Definition clip (lower upper x : fl) : fl :=
  if is_nan x then NaN
  else if flt x lower then lower
  else if fgt x upper then upper
  else x.

(** Python's [int(x)]: truncation toward zero; [NaN] raises [ValueError],
    an infinity raises [OverflowError]. *)
Definition Qtrunc (q : Q) : Z := Z.quot (Qnum q) (Zpos (Qden q)).

Definition py_int (x : fl) : result Z :=
  match x with
  | Fin q => Ok (Qtrunc q)
  | PInf | NInf => Raise OverflowError
  | NaN => Raise ValueError
  end.

(** Reductions that skip [NaN] ([skipna=True], the pandas default). *)
Definition dropna (l : list fl) : list fl := filter (fun x => negb (is_nan x)) l.

Definition fsum (l : list fl) : fl := fold_left fadd l zero.

Definition nanmean (l : list fl) : fl :=
  match dropna l with
  | [] => NaN
  | v => fdiv (fsum v) (of_nat (List.length v))
  end.

Definition nanmax (l : list fl) : fl :=
  match dropna l with
  | [] => NaN
  | x :: v => fold_left (fun m y => if flt m y then y else m) v x
  end.

(** Sum and mean of an integer column. *)
Definition zsum (l : list Z) : Z := fold_right Z.add 0 l.

Definition zmean (l : list Z) : fl :=
  match l with
  | [] => NaN
  | _ => fdiv (of_Z (zsum l)) (of_nat (List.length l))
  end.

End Float.
Import Float.

(** ** Tables

    The aggregating operations read a fixed set of columns, so their input
    tables are lists of records.  [date] is the one column whose presence
    the code tests (['date' in df.columns]); a table that lacks it has
    [has_date = false] and the [date] fields of its rows are never read. *)

Definition key : Type := (string * string)%type.

Definition key_eq_dec (a b : key) : {a = b} + {a <> b}.
Proof. decide equality; apply string_dec. Defined.

Definition key_eqb (a b : key) : bool := if key_eq_dec a b then true else false.

(** Tuples of strings compare lexicographically, as pandas orders group keys. *)
Definition key_leb (a b : key) : bool :=
  if string_dec (fst a) (fst b) then String.leb (snd a) (snd b)
  else String.leb (fst a) (fst b).

Record bio_row : Type := mk_bio {
  state : string;
  district : string;
  date : option Z;
  total_biometric_updates : Z
}.

Record bio_table : Type := mk_bio_table {
  has_date : bool;
  rows : list bio_row
}.

Record enrol_row : Type := mk_enrol {
  e_state : string;
  e_district : string;
  age_0_5 : Z;
  age_5_17 : Z;
  age_18_greater : Z
}.

Definition bio_key (r : bio_row) : key := (state r, district r).
Definition enrol_key (r : enrol_row) : key := (e_state r, e_district r).

(** [df.empty] *)
Definition empty (df : bio_table) : bool :=
  match rows df with [] => true | _ => false end.

(** *** Sorting and grouping *)

Section Sorting.
Context {A : Type} (leb : A -> A -> bool).

Fixpoint insert_sorted (x : A) (l : list A) : list A :=
  match l with
  | [] => [x]
  | y :: l' => if leb x y then x :: l else y :: insert_sorted x l'
  end.

(** A stable sort.  pandas sorts with numpy's quicksort, which fixes the
    order of the keys but not the relative order of rows with equal keys;
    a stable order is one of the orders it can produce. *)
Definition sort_by (l : list A) : list A := fold_right insert_sorted [] l.
End Sorting.

Section Grouping.
Context {R : Type} (kf : R -> key).

Definition group_keys (l : list R) : list key :=
  sort_by key_leb (nodup key_eq_dec (map kf l)).

Definition group_rows (k : key) (l : list R) : list R :=
  filter (fun r => key_eqb (kf r) k) l.

(** [df.groupby(['state', 'district'])]: one group per distinct key, keys
    ascending, the rows of a group in table order. *)
Definition groupby (l : list R) : list (key * list R) :=
  map (fun k => (k, group_rows k l)) (group_keys l).
End Grouping.

Fixpoint lookup {V : Type} (k : key) (l : list (key * V)) : option V :=
  match l with
  | [] => None
  | (k', v) :: l' => if key_eq_dec k k' then Some v else lookup k l'
  end.

(** [pd.merge(left, right, on=['state', 'district'], how='left')]: every
    left row, in left order, once per right row of the same key, and once
    with a missing value when the key is absent on the right. *)
Definition merge_left {L V : Type} (kf : L -> key) (left : list L)
    (right : list (key * V)) : list (L * option V) :=
  flat_map (fun l =>
              match filter (fun r => key_eqb (fst r) (kf l)) right with
              | [] => [(l, None)]
              | ms => map (fun r => (l, Some (snd r))) ms
              end) left.

(** [NaT] sorts last ([na_position='last']). *)
Definition date_leb (a b : option Z) : bool :=
  match a, b with
  | _, None => true
  | None, Some _ => false
  | Some x, Some y => x <=? y
  end.

Definition sort_values_date (l : list bio_row) : list bio_row :=
  sort_by (fun r1 r2 => date_leb (date r1) (date r2)) l.

(** [Series.mean()] of a datetime column: the mean of the dates that are
    not [NaT]; [NaT] ([None]) when there is none. *)
Definition dates_of (l : list bio_row) : list Z :=
  flat_map (fun r => match date r with Some d => [d] | None => [] end) l.

Definition mean_date (l : list bio_row) : option Q :=
  match dates_of l with
  | [] => None
  | ds => Some (Qred (inject_Z (zsum ds) / inject_Z (Z.of_nat (List.length ds))))
  end.

(** [date > mid_date] and [date <= mid_date]: false as soon as a side is [NaT]. *)
Definition date_after (mid : option Q) (r : bio_row) : bool :=
  match date r, mid with
  | Some d, Some m => Qltb m (inject_Z d)
  | _, _ => false
  end.

Definition date_upto (mid : option Q) (r : bio_row) : bool :=
  match date r, mid with
  | Some d, Some m => Qle_bool (inject_Z d) m
  | _, _ => false
  end.

Definition updates_sum (l : list bio_row) : Z :=
  zsum (map total_biometric_updates l).

(** ** District Metrics Engine *)

Record metric : Type := mk_metric {
  m_state : string;
  m_district : string;
  m_total_biometric_updates : Z;
  total_enrolment : fl;
  growth_rate : fl;
  update_density : fl;
  growth_multiplier : fl;
  AUPS : fl;
  AUPS_Normalized : fl
}.

Definition metric_key (m : metric) : key := (m_state m, m_district m).

Definition set_normalized (v : metric -> fl) (m : metric) : metric :=
  mk_metric (m_state m) (m_district m) (m_total_biometric_updates m)
    (total_enrolment m) (growth_rate m) (update_density m)
    (growth_multiplier m) (AUPS m) (v m).

Definition fillna (v : fl) (x : option fl) : fl :=
  match x with
  | Some y => if is_nan y then v else y
  | None => v
  end.

Definition bio_agg (l : list bio_row) : list (key * Z) :=
  map (fun g => (fst g, updates_sum (snd g))) (groupby bio_key l).

(** [enrol_agg['total_enrolment']] *)
Definition enrol_agg (l : list enrol_row) : list (key * Z) :=
  map (fun g => (fst g,
                 zsum (map age_0_5 (snd g)) + zsum (map age_5_17 (snd g))
                 + zsum (map age_18_greater (snd g))))
      (groupby enrol_key l).

(** The loop body of the growth computation for one group. *)
Definition growth_of (mid_date : option Q) (group : list bio_row) : fl :=
  let recent := updates_sum (filter (date_after mid_date) group) in
  let past := updates_sum (filter (date_upto mid_date) group) in
  if 0 <? past then fdiv (of_Z (recent - past)) (of_Z past) else zero.

(** Step 1: the aggregates, their left merge, and [fillna(1)]. *)
Definition with_enrolment (bio_df : bio_table) (enrol_df : list enrol_row)
  : list (key * Z * fl) :=
  map (fun p => (fst p, fillna one (option_map of_Z (snd p))))
      (merge_left fst (bio_agg (rows bio_df)) (enrol_agg enrol_df)).

(** Step 2: the [growth_rate] column.  With a [date] column the per-group
    results are collected in a list of dicts, turned into a frame and
    left-merged on the key; [pd.DataFrame([])] has no columns at all, so the
    merge raises [KeyError] when there was no group. *)
Definition growth_rates (bio_df : bio_table) : list (key * fl) :=
  let bio_sorted := sort_values_date (rows bio_df) in
  let mid_date := mean_date bio_sorted in
  map (fun g => (fst g, growth_of mid_date (snd g))) (groupby bio_key bio_sorted).

Definition with_growth (bio_df : bio_table) (metrics : list (key * Z * fl))
  : result (list (key * Z * fl * fl)) :=
  if has_date bio_df then
    match growth_rates bio_df with
    | [] => Raise KeyError
    | growth_df =>
        Ok (map (fun p => (fst p, match snd p with Some g => g | None => NaN end))
                (merge_left (fun m => fst (fst m)) metrics growth_df))
    end
  else Ok (map (fun m => (m, zero)) metrics).

(** Step 3: density, multiplier and raw score of one row.  The
    [AUPS_Normalized] column does not exist yet; [normalize] assigns it in
    every row. *)
Definition score (m : key * Z * fl * fl) : metric :=
  let '(k, updates, enrolment, growth) := m in
  let density := fdiv (of_Z updates) enrolment in
  let multiplier := fadd one (clip (Fin (-1 # 2)) (Fin 2) growth) in
  mk_metric (fst k) (snd k) updates enrolment growth density multiplier
    (fmul (fmul density multiplier) (of_Z 1000)) NaN.

(** Descending by [AUPS], [NaN] last. *)
Definition aups_desc (m1 m2 : metric) : bool :=
  if is_nan (AUPS m2) then true
  else if is_nan (AUPS m1) then false
  else fle (AUPS m2) (AUPS m1).

(** The normalisation to 0-100. *)
Definition normalize (metrics : list metric) : list metric :=
  let max_score := nanmax (map AUPS metrics) in
  if fgt max_score zero
  then map (set_normalized (fun m => fmul (fdiv (AUPS m) max_score) (of_Z 100))) metrics
  else map (set_normalized (fun _ => zero)) metrics.

Definition calculate_district_metrics (bio_df : bio_table) (enrol_df : list enrol_row)
  : result (list metric) :=
  metrics <- with_growth bio_df (with_enrolment bio_df enrol_df) ;;
  Ok (normalize (sort_by aups_desc (map score metrics))).

(** ** Forecaster *)

Record forecast_point : Type := mk_point {
  fp_date : Z;
  forecast : Z;
  lower_ci : Z;
  upper_ci : Z
}.

(** [df.groupby('date')[...].sum()] followed by [sort_values('date')]:
    one total per distinct date, ascending; rows without a date form no
    group. *)
Definition daily_totals (l : list bio_row) : list (Z * Z) :=
  map (fun d => (d, updates_sum
                      (filter (fun r => match date r with
                                        | Some d' => d' =? d
                                        | None => false
                                        end) l)))
      (sort_by Z.leb (nodup Z.eq_dec (dates_of l))).

(** [tail(n)] *)
Definition tail {A : Type} (n : nat) (l : list A) : list A :=
  skipn (List.length l - n) l.

(** [Series.pct_change()]: [x / x.shift(1) - 1]; the first entry has no
    predecessor and is [NaN]. *)
Fixpoint pct_from (prev : Z) (l : list Z) : list fl :=
  match l with
  | [] => []
  | x :: l' => fsub (fdiv (of_Z x) (of_Z prev)) one :: pct_from x l'
  end.

Definition pct_change (l : list Z) : list fl :=
  match l with
  | [] => []
  | x :: l' => NaN :: pct_from x l'
  end.

Definition uncertainty_at (i : Z) : fl :=
  fadd (Fin (5 # 100)) (fmul (Fin (1 # 100)) (of_Z i)).

(** The loop [for i in range(1, days + 1)], entered at index [i] with [n]
    iterations to go. *)
Fixpoint forecast_loop (n : nat) (i : Z) (last_date : Z) (growth_factor current_val : fl)
  : result (list forecast_point) :=
  match n with
  | O => Ok []
  | S n' =>
      let next_date := last_date + i in
      let current_val := fmul current_val growth_factor in
      let uncertainty := uncertainty_at i in
      f <- py_int current_val ;;
      lo <- py_int (fmul current_val (fsub one uncertainty)) ;;
      hi <- py_int (fmul current_val (fadd one uncertainty)) ;;
      rest <- forecast_loop n' (i + 1) last_date growth_factor current_val ;;
      Ok (mk_point next_date f lo hi :: rest)
  end.

Definition growth_factor_of (avg_growth : fl) : fl :=
  fadd one (py_max (py_min avg_growth (Fin (5 # 100))) (Fin (-5 # 100))).

(** [if state != "All": df = df[df['state'] == state]] *)
Definition select_state (st : string) (df : bio_table) : bio_table :=
  if string_dec st "All" then df
  else mk_bio_table (has_date df)
         (filter (fun r => if string_dec (state r) st then true else false) (rows df)).

Definition generate_forecast (df : bio_table) (st : string) (days : Z)
  : result (list forecast_point) :=
  let df := select_state st df in
  if empty df || negb (has_date df) then Ok []
  else
    let daily := daily_totals (rows df) in
    let last_14 := tail 14 daily in
    if (List.length last_14 <? 14)%nat then Ok []
    else
      let avg_growth := nanmean (pct_change (map snd last_14)) in
      let last_val := snd (last last_14 (0, 0)) in
      let last_date := fst (last last_14 (0, 0)) in
      forecast_loop (Z.to_nat days) 1 last_date (growth_factor_of avg_growth)
        (of_Z last_val).

(** ** Backtest Validator *)

Inductive validation : Type :=
| NoResult (accuracy : Z) (desc : string)
| ValidationResult (is_valid : bool) (stressed_avg_t2 normal_avg_t2 lift : fl).

(** [Series.quantile(q)] with the default linear interpolation between the
    two order statistics around position [q * (n - 1)]; [NaN] entries are
    left out and an empty column gives [NaN]. *)
Definition quantile (q : Q) (l : list fl) : fl :=
  match sort_by fle (dropna l) with
  | [] => NaN
  | v =>
      let n := List.length v in
      let pos := (q * inject_Z (Z.of_nat (n - 1)))%Q in
      let lo := Z.to_nat (Qfloor pos) in
      let hi := Nat.min (lo + 1) (n - 1) in
      let frac := Fin (Qred (pos - inject_Z (Qfloor pos))) in
      let a := nth lo v NaN in
      let b := nth hi v NaN in
      fadd a (fmul (fsub b a) frac)
  end.

Inductive merge_indicator : Type := both | left_only.

(** [merge(..., how='left', indicator=True)] against a frame that holds
    only key columns. *)
Definition merge_left_indicator {L : Type} (kf : L -> key) (left : list L)
    (right : list key) : list (L * merge_indicator) :=
  map (fun p => (fst p, match snd p with Some _ => both | None => left_only end))
      (merge_left kf left (map (fun k => (k, tt)) right)).

Definition is_both (p : (key * Z) * merge_indicator) : bool :=
  match snd p with both => true | left_only => false end.

Definition run_backtest_validation (bio_df : bio_table) (enrol_df : list enrol_row)
  : result validation :=
  if negb (has_date bio_df) then Ok (NoResult 0 "No date column")
  else
    let bio_sorted := sort_values_date (rows bio_df) in
    let mid_idx := (List.length bio_sorted / 2)%nat in
    let t1_df := firstn mid_idx bio_sorted in
    let t2_df := skipn mid_idx bio_sorted in
    match t1_df, t2_df with
    | [], _ | _, [] => Ok (NoResult 0 "Insufficient data split")
    | _, _ =>
        t1_metrics <- calculate_district_metrics (mk_bio_table true t1_df) enrol_df ;;
        let threshold := quantile (8 # 10) (map AUPS t1_metrics) in
        let stressed_districts :=
          map metric_key (filter (fun m => fge (AUPS m) threshold) t1_metrics) in
        let t2_agg :=
          merge_left_indicator fst (bio_agg t2_df) stressed_districts in
        let t2_stressed_vol :=
          zmean (map (fun p => snd (fst p)) (filter is_both t2_agg)) in
        let t2_normal_vol :=
          zmean (map (fun p => snd (fst p)) (filter (fun p => negb (is_both p)) t2_agg)) in
        let is_valid := fgt t2_stressed_vol t2_normal_vol in
        let lift := if fgt t2_normal_vol zero
                    then fdiv t2_stressed_vol t2_normal_vol else one in
        Ok (ValidationResult is_valid t2_stressed_vol t2_normal_vol lift)
    end.

(** ** Feature Deriver

    [feature_engineering] assigns new columns to the frames it was handed
    and returns the very same objects, so it is modelled over a heap of
    frames addressed by reference: a caller that kept a reference sees every
    assignment.  A frame is column-oriented, as in pandas. *)

Module Frame.

Inductive series : Type :=
| SInt (l : list Z)
| SFloat (l : list fl)
| SObj (l : list string)
| SDate (l : list (option Z)).

Record DataFrame : Type := mk_frame {
  index_len : nat;
  columns : list (string * series)
}.

(** [df.empty]: some axis has length 0. *)
Definition df_empty (df : DataFrame) : bool :=
  (index_len df =? 0)%nat || match columns df with [] => true | _ => false end.

Fixpoint find_col (c : string) (cols : list (string * series)) : option series :=
  match cols with
  | [] => None
  | (c', s) :: cols' => if string_dec c c' then Some s else find_col c cols'
  end.

(** [df[c] = s]: an existing column is replaced in place, a new one is
    appended. *)
Fixpoint set_col (c : string) (s : series) (cols : list (string * series))
  : list (string * series) :=
  match cols with
  | [] => [(c, s)]
  | (c', s') :: cols' =>
      if string_dec c c' then (c, s) :: cols' else (c', s') :: set_col c s cols'
  end.

Fixpoint zip_with {A B C : Type} (f : A -> B -> C) (l1 : list A) (l2 : list B) : list C :=
  match l1, l2 with
  | a :: l1', b :: l2' => f a b :: zip_with f l1' l2'
  | _, _ => []
  end.

(** Elementwise [+]: integers stay integers, a float operand makes the
    result float, strings concatenate; anything else is a [TypeError]. *)
Definition series_add (x y : series) : result series :=
  match x, y with
  | SInt a, SInt b => Ok (SInt (zip_with Z.add a b))
  | SInt a, SFloat b => Ok (SFloat (zip_with (fun u v => fadd (of_Z u) v) a b))
  | SFloat a, SInt b => Ok (SFloat (zip_with (fun u v => fadd u (of_Z v)) a b))
  | SFloat a, SFloat b => Ok (SFloat (zip_with fadd a b))
  | SObj a, SObj b => Ok (SObj (zip_with String.append a b))
  | _, _ => Raise TypeError
  end.

(** Elementwise true division: always float, never an exception on a zero
    divisor. *)
Definition series_div (x y : series) : result series :=
  match x, y with
  | SInt a, SInt b => Ok (SFloat (zip_with (fun u v => fdiv (of_Z u) (of_Z v)) a b))
  | SInt a, SFloat b => Ok (SFloat (zip_with (fun u v => fdiv (of_Z u) v) a b))
  | SFloat a, SInt b => Ok (SFloat (zip_with (fun u v => fdiv u (of_Z v)) a b))
  | SFloat a, SFloat b => Ok (SFloat (zip_with fdiv a b))
  | _, _ => Raise TypeError
  end.

Definition ref : Type := nat.
Definition heap : Type := ref -> DataFrame.

Definition upd (h : heap) (r : ref) (df : DataFrame) : heap :=
  fun r' => if Nat.eq_dec r' r then df else h r'.

(** Computations that read and assign frames and may raise; the heap
    survives an exception. *)
Definition M (A : Type) : Type := heap -> heap * result A.

Definition ret {A : Type} (a : A) : M A := fun h => (h, Ok a).

Definition mbind {A B : Type} (m : M A) (k : A -> M B) : M B :=
  fun h => match m h with
           | (h', Ok a) => k a h'
           | (h', Raise e) => (h', Raise e)
           end.

Notation "x <<- m ;; k" := (mbind m (fun x => k))
  (at level 61, m at next level, right associativity).
Notation "m ;;; k" := (mbind m (fun _ => k))
  (at level 61, right associativity).

Definition lift {A : Type} (x : result A) : M A := fun h => (h, x).

Definition is_empty (r : ref) : M bool := fun h => (h, Ok (df_empty (h r))).

Definition getitem (r : ref) (c : string) : M series :=
  fun h => (h, match find_col c (columns (h r)) with
               | Some s => Ok s
               | None => Raise KeyError
               end).

Definition setitem (r : ref) (c : string) (s : series) : M unit :=
  fun h => (upd h r (mk_frame (index_len (h r)) (set_col c s (columns (h r)))), Ok tt).

(** The two derived columns of one frame: a total and the share of
    [part] in it. *)
Definition derive (df : ref) (c1 c2 total part share : string) : M unit :=
  x <<- getitem df c1 ;;
  y <<- getitem df c2 ;;
  t <<- lift (series_add x y) ;;
  setitem df total t ;;;
  p <<- getitem df part ;;
  t' <<- getitem df total ;;
  q <<- lift (series_div p t') ;;
  setitem df share q.

Definition feature_engineering (bio_df demo_df enrol_df : ref) : M (ref * ref * ref) :=
  be <<- is_empty bio_df ;;
  (if negb be
   then derive bio_df "bio_age_5_17" "bio_age_17_" "total_biometric_updates"
          "bio_age_5_17" "child_teen_update_share"
   else ret tt) ;;;
  de <<- is_empty demo_df ;;
  (if negb de
   then derive demo_df "demo_age_5_17" "demo_age_17_" "total_demographic_updates"
          "demo_age_17_" "adult_update_share"
   else ret tt) ;;;
  ret (bio_df, demo_df, enrol_df).

End Frame.

(** A non-empty frame that holds the integer counters [l1] and [l2] in
    its columns [c1] and [c2]. *)
Definition has_counters (df : Frame.DataFrame) (c1 c2 : string) (l1 l2 : list Z) : Prop :=
  Frame.df_empty df = false /\
  Frame.find_col c1 (Frame.columns df) = Some (Frame.SInt l1) /\
  Frame.find_col c2 (Frame.columns df) = Some (Frame.SInt l2).

(** The frame [df] after the assignments [df[total] = ...] and
    [df[share] = ...] for counters [l1], [l2], the share being that of
    [part]. *)
Definition with_derived (df : Frame.DataFrame) (total share : string)
    (l1 l2 part : list Z) : Frame.DataFrame :=
  let totals := Frame.zip_with Z.add l1 l2 in
  Frame.mk_frame (Frame.index_len df)
    (Frame.set_col share
       (Frame.SFloat (Frame.zip_with (fun u v => fdiv (of_Z u) (of_Z v)) part totals))
       (Frame.set_col total (Frame.SInt totals) (Frame.columns df))).

(** ** Record cleaning

    [clean_data] renames the columns of the frame it is given and converts
    its [date] column, in place.  Column names are ASCII strings.  The
    conversion [pd.to_datetime(..., format='%d-%m-%Y', errors='coerce')] is
    a library function and is taken as a parameter. *)

Module Clean.
Import Frame.

(** [str.isspace] on ASCII: tab to carriage return, the four separators
    [0x1c] to [0x1f], and the space. *)
Definition is_space (c : ascii) : bool :=
  let n := N_of_ascii c in
  ((9 <=? n) && (n <=? 13) || (28 <=? n) && (n <=? 32))%N.

Definition lower_char (c : ascii) : ascii :=
  let n := N_of_ascii c in
  if ((65 <=? n) && (n <=? 90))%N then ascii_of_N (n + 32) else c.

(** [str.lower] *)
Fixpoint lower (s : string) : string :=
  match s with
  | EmptyString => EmptyString
  | String c s' => String (lower_char c) (lower s')
  end.

Fixpoint lstrip (s : string) : string :=
  match s with
  | EmptyString => EmptyString
  | String c s' => if is_space c then lstrip s' else s
  end.

Fixpoint rstrip (s : string) : string :=
  match s with
  | EmptyString => EmptyString
  | String c s' =>
      match rstrip s' with
      | EmptyString => if is_space c then EmptyString else String c EmptyString
      | t => String c t
      end
  end.

(** [str.strip] *)
Definition strip (s : string) : string := lstrip (rstrip s).

(** [c.strip().lower()] *)
Definition normalize_name (c : string) : string := lower (strip c).

(** [df.columns = [c.strip().lower() for c in df.columns]] *)
Definition rename_columns (df : DataFrame) : DataFrame :=
  mk_frame (index_len df)
    (map (fun p => (normalize_name (fst p), snd p)) (columns df)).

Definition count_col (c : string) (cols : list (string * series)) : nat :=
  List.length (filter (fun p => if string_dec (fst p) c then true else false) cols).

Section CleanData.
Variable to_datetime : series -> result series.

(** With one [date] column the column is converted and assigned back.
    With several columns of that name [df['date']] is a frame, and
    [pd.to_datetime] refuses a frame with duplicate keys ([ValueError]). *)
Definition clean_data (df : ref) : M ref :=
  mbind (is_empty df) (fun e =>
  if e then ret df
  else
    mbind (fun h => (upd h df (rename_columns (h df)), Ok tt)) (fun _ =>
    mbind (fun h => (h, Ok (count_col "date" (columns (h df))))) (fun n =>
    match n with
    | O => ret df
    | S O =>
        mbind (getitem df "date") (fun s =>
        mbind (lift (to_datetime s)) (fun s' =>
        mbind (setitem df "date" s') (fun _ => ret df)))
    | _ => lift (Raise ValueError)
    end))).

End CleanData.

End Clean.

(** A one-row frame as read from a CSV file, with untidy column names. *)
Definition ex_raw : Frame.heap :=
  fun _ => Frame.mk_frame 1
             [(" Date"%string, Frame.SObj ["01-03-2025"%string]);
              ("State "%string, Frame.SObj ["S"%string]);
              ("Bio_Age_5_17"%string, Frame.SInt [4])].

(** A stand-in for the conversion: every entry becomes [NaT]. *)
Definition ex_to_datetime (s : Frame.series) : result Frame.series :=
  match s with
  | Frame.SObj l => Ok (Frame.SDate (map (fun _ => None) l))
  | other => Ok other
  end.

(** ** The forecast step in IEEE binary64

    The loop body of [generate_forecast] once more, this time over the
    standard library's executable specification of IEEE 754 arithmetic at
    precision 53 (round to nearest even), to check that the truncations of
    the documented example do not depend on the exact arithmetic of [fl]. *)

Module Binary64.

Definition prec : Z := 53.
Definition emax : Z := 1024.

Definition b64_of_Z (z : Z) : spec_float := binary_normalize prec emax z 0 false.
Definition b64_add : spec_float -> spec_float -> spec_float := SFadd prec emax.
Definition b64_sub : spec_float -> spec_float -> spec_float := SFsub prec emax.
Definition b64_mul : spec_float -> spec_float -> spec_float := SFmul prec emax.
Definition b64_div : spec_float -> spec_float -> spec_float := SFdiv prec emax.

(** The literals [0.05], [0.01] and [0.06]: the doubles nearest to the
    decimal fractions. *)
Definition lit_0_05 : spec_float := b64_div (b64_of_Z 5) (b64_of_Z 100).
Definition lit_0_01 : spec_float := b64_div (b64_of_Z 1) (b64_of_Z 100).
Definition lit_0_06 : spec_float := b64_div (b64_of_Z 6) (b64_of_Z 100).

Definition b64_int (x : spec_float) : result Z :=
  match x with
  | S754_zero _ => Ok 0
  | S754_finite s m e =>
      let mag := if 0 <=? e then Zpos m * 2 ^ e else Zpos m / 2 ^ (- e) in
      Ok (if s then - mag else mag)
  | S754_infinity _ => Raise OverflowError
  | S754_nan => Raise ValueError
  end.

Definition b64_uncertainty (i : Z) : spec_float :=
  b64_add lit_0_05 (b64_mul lit_0_01 (b64_of_Z i)).

(** One iteration: the new [current_val] and the three integers. *)
Definition b64_step (current_val growth_factor : spec_float) (i : Z)
  : spec_float * result (Z * Z * Z) :=
  let current_val := b64_mul current_val growth_factor in
  let uncertainty := b64_uncertainty i in
  (current_val,
   f <- b64_int current_val ;;
   lo <- b64_int (b64_mul current_val (b64_sub (b64_of_Z 1) uncertainty)) ;;
   hi <- b64_int (b64_mul current_val (b64_add (b64_of_Z 1) uncertainty)) ;;
   Ok (f, lo, hi)).

End Binary64.

(** ** Reference formulations

    The quantities the specification talks about, written directly over the
    input tables; the theorems below relate them to what the code builds
    through its aggregations, merges and sorts. *)

(** The enrolment total the specification's step 1 and 2 ascribe to a
    district, before any flooring: the sum of the three age bands over the
    district's enrolment rows, or nothing when it has no such row. *)
Definition enrolment_sum (enrol_df : list enrol_row) (k : key) : option Z :=
  match filter (fun r => key_eqb (enrol_key r) k) enrol_df with
  | [] => None
  | own => Some (zsum (map age_0_5 own) + zsum (map age_5_17 own)
                 + zsum (map age_18_greater own))
  end.

(** The value in the [total_enrolment] column for district [k]. *)
Definition enrolment_for (enrol_df : list enrol_row) (k : key) : fl :=
  fillna one (option_map of_Z (lookup k (enrol_agg enrol_df))).

(** The value in the [growth_rate] column for district [k]: the split of
    the district's rows at the mean date of the whole table. *)
Definition growth_for (bio_df : bio_table) (k : key) : fl :=
  if has_date bio_df
  then growth_of (mean_date (rows bio_df)) (group_rows bio_key k (rows bio_df))
  else zero.

(** The rows of the metrics frame before scoring. *)
Definition metric_rows (bio_df : bio_table) (enrol_df : list enrol_row)
  : list (key * Z * fl * fl) :=
  map (fun a => (a, enrolment_for enrol_df (fst a), growth_for bio_df (fst a)))
      (bio_agg (rows bio_df)).

(** The two halves of the history the Backtest Validator works on. *)
Definition backtest_t1 (bio_df : bio_table) : list bio_row :=
  firstn (List.length (rows bio_df) / 2) (sort_values_date (rows bio_df)).

Definition backtest_t2 (bio_df : bio_table) : list bio_row :=
  skipn (List.length (rows bio_df) / 2) (sort_values_date (rows bio_df)).



(** ** Example tables *)

Definition ex_enrol : list enrol_row :=
  [mk_enrol "S" "A" 10 10 10].

(** Three districts over three days; district C has a row without a date. *)
Definition ex_bio : bio_table :=
  mk_bio_table true
    [mk_bio "S" "A" (Some 1) 60; mk_bio "S" "A" (Some 3) 90;
     mk_bio "S" "B" (Some 3) 90; mk_bio "S" "C" None 5].

(** The same rows read from a file without a [date] column. *)
Definition ex_bio_undated : bio_table := mk_bio_table false (rows ex_bio).

(** A history in which district B is the stressed one in the first half
    and both districts report in the second half. *)
Definition ex_history : bio_table :=
  mk_bio_table true
    [mk_bio "S" "A" (Some 1) 60; mk_bio "S" "B" (Some 1) 10;
     mk_bio "S" "B" (Some 3) 90; mk_bio "S" "A" (Some 3) 90;
     mk_bio "S" "A" (Some 4) 90].

(** A history in which the only district of the first half does not
    report in the second half. *)
Definition ex_disjoint : bio_table :=
  mk_bio_table true
    [mk_bio "S" "A" (Some 1) 60; mk_bio "S" "B" (Some 3) 90].


(** A heap with a biometric frame of two rows at reference 0 (the second
    row has no update at all), an empty demographic frame at 1 and an
    enrolment frame at 2. *)
Definition ex_heap : Frame.heap :=
  fun r =>
    match r with
    | O => Frame.mk_frame 2
             [("bio_age_5_17"%string, Frame.SInt [1; 0]);
              ("bio_age_17_"%string, Frame.SInt [3; 0])]
    | S O => Frame.mk_frame 0 []
    | _ => Frame.mk_frame 1
             [("age_0_5"%string, Frame.SInt [4]);
              ("age_5_17"%string, Frame.SInt [5]);
              ("age_18_greater"%string, Frame.SInt [6])]
    end.

(** District B is present in the enrolment table with all three counters
    at zero. *)
Definition ex_enrol_zero : list enrol_row :=
  [mk_enrol "S" "A" 10 10 10; mk_enrol "S" "B" 0 0 0].

Definition ex_bio_AB : bio_table :=
  mk_bio_table false [mk_bio "S" "A" None 60; mk_bio "S" "B" None 90].

Definition ex_bio_B : bio_table :=
  mk_bio_table false [mk_bio "S" "B" None 90].

(** A busy day 0 followed by fourteen days on which the rows report no
    update. *)
Definition ex_quiet : bio_table :=
  mk_bio_table true
    (mk_bio "S" "A" (Some 0) 50
     :: map (fun d => mk_bio "S" "A" (Some (Z.of_nat d)) 0) (seq 1 14)).




(** A heap whose biometric (0) and demographic (1) frames both hold two
    rows of counters. *)
Definition ex_heap_full : Frame.heap :=
  fun r =>
    match r with
    | O => Frame.mk_frame 2
             [("bio_age_5_17"%string, Frame.SInt [1; 0]);
              ("bio_age_17_"%string, Frame.SInt [3; 0])]
    | S O => Frame.mk_frame 2
               [("demo_age_5_17"%string, Frame.SInt [2; 0]);
                ("demo_age_17_"%string, Frame.SInt [6; 1])]
    | _ => Frame.mk_frame 1 [("age_0_5"%string, Frame.SInt [4])]
    end.

(** One district reporting [v] updates on each of the days 1 to 14. *)
Definition flat_table (v : Z) : bio_table :=
  mk_bio_table true
    (map (fun d => mk_bio "S" "A" (Some (Z.of_nat d)) v) (seq 1 14)).


(** The metrics of the example tables. *)
Definition ex_metrics : list metric :=
  match calculate_district_metrics ex_bio ex_enrol with
  | Ok metrics => metrics
  | Raise _ => []
  end.

(* ================================================================== *)
(** * Properties *)

(** ** Arithmetic of [fl] *)

Lemma Qltb_lt (a b : Q) : Qltb a b = true <-> (a < b)%Q.
Proof.
  unfold Qltb. rewrite negb_true_iff. split.
  - intros H. apply Qnot_le_lt. intros Hle.
    apply Qle_bool_iff in Hle. congruence.
  - intros H. destruct (Qle_bool b a) eqn:E; [|reflexivity].
    apply Qle_bool_iff in E. exfalso. apply (Qlt_not_le _ _ H E).
Qed.

Lemma Qltb_ge (a b : Q) : Qltb a b = false <-> (b <= a)%Q.
Proof.
  unfold Qltb. rewrite negb_false_iff. apply Qle_bool_iff.
Qed.

Lemma Qis0_true (a : Q) : Qis0 a = true <-> (a == 0)%Q.
Proof. apply Qeq_bool_iff. Qed.

Lemma Qis0_false (a : Q) : Qis0 a = false <-> ~ (a == 0)%Q.
Proof.
  unfold Qis0. split.
  - apply Qeq_bool_neq.
  - intros H. destruct (Qeq_bool a 0) eqn:E; [|reflexivity].
    apply Qeq_bool_iff in E. contradiction.
Qed.

(** [int()] truncates toward zero: the floor of a non-negative rational,
    the ceiling of a negative one. *)
Lemma Qtrunc_nonneg (q : Q) : (0 <= q)%Q -> Qtrunc q = Qfloor q.
Proof.
  destruct q as [n d]. unfold Qle, Qtrunc, Qfloor. simpl. intros H.
  apply Z.quot_div_nonneg; lia.
Qed.

Lemma Qtrunc_neg (q : Q) : (q <= 0)%Q -> Qtrunc q = Qceiling q.
Proof.
  destruct q as [n d]. unfold Qle, Qtrunc, Qceiling, Qfloor. simpl. intros H.
  rewrite <- (Z.opp_involutive n) at 1.
  rewrite Z.quot_opp_l by lia.
  rewrite Z.quot_div_nonneg by lia. reflexivity.
Qed.


Lemma Qtrunc_inject_Z (z : Z) : Qtrunc (inject_Z z) = z.
Proof. unfold Qtrunc, inject_Z. simpl. apply Z.quot_1_r. Qed.

Lemma Qtrunc_Qred (q : Q) : Qtrunc (Qred q) = Qtrunc q.
Proof.
  destruct (Qlt_le_dec q 0) as [H|H].
  - rewrite !Qtrunc_neg.
    + unfold Qceiling. f_equal. apply Qfloor_comp.
      rewrite Qred_correct. reflexivity.
    + apply Qlt_le_weak, H.
    + rewrite Qred_correct. apply Qlt_le_weak, H.
  - rewrite !Qtrunc_nonneg.
    + apply Qfloor_comp, Qred_correct.
    + exact H.
    + rewrite Qred_correct. exact H.
Qed.

Lemma fle_Fin (a b : Q) : fle (Fin a) (Fin b) = true <-> (a <= b)%Q.
Proof.
  unfold fle, flt, feqb. rewrite orb_true_iff, Qltb_lt, Qeq_bool_iff. split.
  - intros [H|H]; [apply Qlt_le_weak, H | rewrite H; apply Qle_refl].
  - intros H. apply Qle_lt_or_eq in H. tauto.
Qed.

Lemma flt_Fin (a b : Q) : flt (Fin a) (Fin b) = true <-> (a < b)%Q.
Proof. apply Qltb_lt. Qed.


Lemma inject_Z_pos (z : Z) : 0 < z -> (0 < inject_Z z)%Q.
Proof. intros H. unfold Qlt. simpl. lia. Qed.

Lemma fdiv_Fin (a b : Q) : ~ (b == 0)%Q -> fdiv (Fin a) (Fin b) = Fin (Qred (a / b)).
Proof. intros H. unfold fdiv. apply Qis0_false in H. rewrite H. reflexivity. Qed.



(** ** Sorting and grouping *)

Section SortingFacts.
Context {A : Type} (leb : A -> A -> bool).

Lemma insert_sorted_perm (x : A) (l : list A) :
  Permutation (insert_sorted leb x l) (x :: l).
Proof.
  induction l as [|y l IH]; simpl.
  - apply Permutation_refl.
  - destruct (leb x y).
    + apply Permutation_refl.
    + eapply perm_trans; [apply perm_skip, IH | apply perm_swap].
Qed.

Lemma sort_by_perm (l : list A) : Permutation (sort_by leb l) l.
Proof.
  induction l as [|x l IH]; simpl.
  - apply perm_nil.
  - eapply perm_trans; [apply insert_sorted_perm | apply perm_skip, IH].
Qed.

Lemma sort_by_In (l : list A) (x : A) : In x (sort_by leb l) <-> In x l.
Proof.
  split; apply Permutation_in;
    [apply sort_by_perm | apply Permutation_sym, sort_by_perm].
Qed.

Lemma sort_by_length (l : list A) : List.length (sort_by leb l) = List.length l.
Proof. apply Permutation_length, sort_by_perm. Qed.

Lemma sort_by_nil (l : list A) : sort_by leb l = [] -> l = [].
Proof.
  intros H. apply Permutation_nil. rewrite <- H. apply sort_by_perm.
Qed.
End SortingFacts.

Lemma key_eqb_true (a b : key) : key_eqb a b = true <-> a = b.
Proof. unfold key_eqb. destruct (key_eq_dec a b); split; congruence. Qed.

Lemma key_eqb_refl (a : key) : key_eqb a a = true.
Proof. apply key_eqb_true. reflexivity. Qed.

Lemma zsum_app (l1 l2 : list Z) : zsum (l1 ++ l2) = zsum l1 + zsum l2.
Proof. induction l1; simpl; lia. Qed.

Lemma zsum_perm (l1 l2 : list Z) : Permutation l1 l2 -> zsum l1 = zsum l2.
Proof. induction 1; simpl; lia. Qed.

Lemma filter_perm {A : Type} (f : A -> bool) (l1 l2 : list A) :
  Permutation l1 l2 -> Permutation (filter f l1) (filter f l2).
Proof.
  induction 1; simpl.
  - apply perm_nil.
  - destruct (f x); [apply perm_skip|]; assumption.
  - destruct (f x), (f y); try apply Permutation_refl.
    apply perm_swap.
  - eapply perm_trans; eassumption.
Qed.

Lemma updates_sum_perm (l1 l2 : list bio_row) :
  Permutation l1 l2 -> updates_sum l1 = updates_sum l2.
Proof. intros H. apply zsum_perm, Permutation_map, H. Qed.

Lemma dates_of_perm (l1 l2 : list bio_row) :
  Permutation l1 l2 -> Permutation (dates_of l1) (dates_of l2).
Proof.
  induction 1; simpl.
  - apply perm_nil.
  - apply Permutation_app_head. assumption.
  - rewrite !app_assoc. apply Permutation_app_tail, Permutation_app_comm.
  - eapply perm_trans; eassumption.
Qed.

Lemma mean_date_perm (l1 l2 : list bio_row) :
  Permutation l1 l2 -> mean_date l1 = mean_date l2.
Proof.
  intros H. apply dates_of_perm in H. unfold mean_date.
  pose proof (zsum_perm _ _ H) as Hs.
  pose proof (Permutation_length H) as Hl.
  destruct (dates_of l1) as [|d1 ds1], (dates_of l2) as [|d2 ds2];
    try discriminate; [reflexivity|].
  rewrite Hs, Hl. reflexivity.
Qed.

Section GroupingFacts.
Context {R : Type} (kf : R -> key).

Lemma group_keys_In (l : list R) (k : key) :
  In k (group_keys kf l) <-> In k (map kf l).
Proof. unfold group_keys. rewrite sort_by_In. apply nodup_In. Qed.

Lemma group_keys_NoDup (l : list R) : NoDup (group_keys kf l).
Proof.
  unfold group_keys.
  eapply Permutation_NoDup; [apply Permutation_sym, sort_by_perm | apply NoDup_nodup].
Qed.

Lemma groupby_keys (l : list R) : map fst (groupby kf l) = group_keys kf l.
Proof. unfold groupby. rewrite map_map. simpl. apply map_id. Qed.

Lemma groupby_nil (l : list R) : groupby kf l = [] -> l = [].
Proof.
  unfold groupby. intros H. apply map_eq_nil in H.
  destruct l as [|r l]; [reflexivity|].
  assert (In (kf r) (group_keys kf (r :: l))) as Hin
    by (apply group_keys_In; left; reflexivity).
  rewrite H in Hin. destruct Hin.
Qed.

Lemma group_rows_perm (k : key) (l1 l2 : list R) :
  Permutation l1 l2 -> Permutation (group_rows kf k l1) (group_rows kf k l2).
Proof. apply filter_perm. Qed.
End GroupingFacts.

(** Aggregating the groups with [f] gives a table with one entry per key. *)
Lemma lookup_map_keys {V : Type} (f : key -> V) (ks : list key) (k : key) :
  lookup k (map (fun k' => (k', f k')) ks) =
  if in_dec key_eq_dec k ks then Some (f k) else None.
Proof.
  induction ks as [|k' ks IH]; simpl; [reflexivity|].
  destruct (key_eq_dec k k') as [->|Hne].
  - destruct (key_eq_dec k' k'); [|congruence].
    destruct (in_dec key_eq_dec k' ks); reflexivity.
  - rewrite IH. destruct (key_eq_dec k' k); [congruence|].
    destruct (in_dec key_eq_dec k ks); reflexivity.
Qed.

Lemma lookup_None {V : Type} (k : key) (l : list (key * V)) :
  lookup k l = None <-> ~ In k (map fst l).
Proof.
  induction l as [|[k' v] l IH]; simpl.
  - tauto.
  - destruct (key_eq_dec k k') as [->|Hne].
    + split; [discriminate | intros H; exfalso; apply H; left; reflexivity].
    + rewrite IH. split.
      * intros H [E|E]; [congruence | tauto].
      * tauto.
Qed.

Lemma lookup_In {V : Type} (k : key) (v : V) (l : list (key * V)) :
  lookup k l = Some v -> In (k, v) l.
Proof.
  induction l as [|[k' v'] l IH]; simpl; [discriminate|].
  destruct (key_eq_dec k k') as [->|Hne].
  - intros [= ->]. left. reflexivity.
  - intros H. right. apply IH, H.
Qed.

(** When the keys of the right table are pairwise distinct, the rows
    matching one key are the result of [lookup], and a left merge keeps
    the left rows one for one. *)
Lemma filter_key_lookup {V : Type} (k : key) (right : list (key * V)) :
  NoDup (map fst right) ->
  filter (fun r => key_eqb (fst r) k) right =
  match lookup k right with Some v => [(k, v)] | None => [] end.
Proof.
  induction right as [|[k' v] right IH]; simpl; intros Hnd; [reflexivity|].
  inversion Hnd as [|? ? Hnot Hnd']; subst.
  destruct (key_eq_dec k k') as [->|Hne].
  - rewrite key_eqb_refl. f_equal.
    rewrite IH by assumption.
    destruct (lookup k' right) eqn:E; [|reflexivity].
    exfalso. apply Hnot. apply lookup_In in E.
    apply (in_map fst) in E. exact E.
  - destruct (key_eqb k' k) eqn:E.
    + apply key_eqb_true in E. congruence.
    + apply IH. assumption.
Qed.

Lemma merge_left_lookup {L V : Type} (kf : L -> key) (left : list L)
    (right : list (key * V)) :
  NoDup (map fst right) ->
  merge_left kf left right = map (fun l => (l, lookup (kf l) right)) left.
Proof.
  intros Hnd. unfold merge_left.
  induction left as [|l left IH]; [reflexivity|].
  cbn [flat_map]. rewrite IH, filter_key_lookup by assumption.
  destruct (lookup (kf l) right) eqn:E; simpl; rewrite E; reflexivity.
Qed.

(** ** District Metrics Engine: what the frames contain *)

Lemma bio_agg_eq (l : list bio_row) :
  bio_agg l =
  map (fun k => (k, updates_sum (group_rows bio_key k l))) (group_keys bio_key l).
Proof. unfold bio_agg, groupby. rewrite map_map. reflexivity. Qed.

Lemma bio_agg_keys (l : list bio_row) : map fst (bio_agg l) = group_keys bio_key l.
Proof. rewrite bio_agg_eq, map_map. apply map_id. Qed.

Lemma enrol_agg_keys (l : list enrol_row) : map fst (enrol_agg l) = group_keys enrol_key l.
Proof. unfold enrol_agg. rewrite map_map. simpl. apply groupby_keys. Qed.

Lemma with_enrolment_eq (bio_df : bio_table) (enrol_df : list enrol_row) :
  with_enrolment bio_df enrol_df =
  map (fun a => (a, enrolment_for enrol_df (fst a))) (bio_agg (rows bio_df)).
Proof.
  unfold with_enrolment.
  rewrite merge_left_lookup
    by (rewrite enrol_agg_keys; apply group_keys_NoDup).
  rewrite map_map. reflexivity.
Qed.

Lemma growth_rates_keys (bio_df : bio_table) :
  map fst (growth_rates bio_df) = group_keys bio_key (sort_values_date (rows bio_df)).
Proof. unfold growth_rates. rewrite map_map. simpl. apply groupby_keys. Qed.

Lemma growth_rates_nil (bio_df : bio_table) :
  growth_rates bio_df = [] -> rows bio_df = [].
Proof.
  unfold growth_rates. intros H. apply map_eq_nil, groupby_nil in H.
  apply sort_by_nil in H. exact H.
Qed.

Lemma growth_of_perm (mid : option Q) (g1 g2 : list bio_row) :
  Permutation g1 g2 -> growth_of mid g1 = growth_of mid g2.
Proof.
  intros H. unfold growth_of.
  rewrite (updates_sum_perm _ _ (filter_perm (date_after mid) _ _ H)).
  rewrite (updates_sum_perm _ _ (filter_perm (date_upto mid) _ _ H)).
  reflexivity.
Qed.

(** The growth recorded for a district does not depend on the sort: it is
    the split of the district's rows at the mean date of the whole table. *)
Lemma growth_rates_lookup (bio_df : bio_table) (k : key) :
  In k (map bio_key (rows bio_df)) ->
  lookup k (growth_rates bio_df) =
  Some (growth_of (mean_date (rows bio_df)) (group_rows bio_key k (rows bio_df))).
Proof.
  intros Hin. unfold growth_rates, groupby. rewrite map_map. simpl.
  rewrite (lookup_map_keys
             (fun k' => growth_of (mean_date (sort_values_date (rows bio_df)))
                          (group_rows bio_key k' (sort_values_date (rows bio_df))))).
  pose proof (sort_by_perm (fun r1 r2 => date_leb (date r1) (date r2)) (rows bio_df))
    as Hperm.
  destruct (in_dec key_eq_dec k _) as [_|Hout].
  - f_equal. unfold sort_values_date.
    rewrite (mean_date_perm _ _ Hperm).
    apply growth_of_perm, group_rows_perm, Hperm.
  - exfalso. apply Hout. apply group_keys_In.
    eapply Permutation_in; [|exact Hin].
    apply Permutation_map, Permutation_sym, Hperm.
Qed.

Lemma with_growth_eq (bio_df : bio_table) (enrol_df : list enrol_row) :
  rows bio_df <> [] \/ has_date bio_df = false ->
  with_growth bio_df (with_enrolment bio_df enrol_df) =
  Ok (metric_rows bio_df enrol_df).
Proof.
  intros Hne. unfold with_growth, metric_rows, growth_for.
  rewrite with_enrolment_eq.
  destruct (has_date bio_df) eqn:Hd.
  - destruct Hne as [Hne|?]; [|discriminate].
    destruct (growth_rates bio_df) as [|g gs] eqn:Hg.
    + apply growth_rates_nil in Hg. contradiction.
    + rewrite <- Hg. f_equal.
      rewrite merge_left_lookup
        by (rewrite growth_rates_keys; apply group_keys_NoDup).
      rewrite !map_map. apply map_ext_in. intros a Ha. simpl.
      rewrite growth_rates_lookup; [reflexivity|].
      apply (group_keys_In bio_key). rewrite <- bio_agg_keys.
      apply in_map, Ha.
  - rewrite map_map. reflexivity.
Qed.

Lemma calculate_district_metrics_eq (bio_df : bio_table) (enrol_df : list enrol_row) :
  rows bio_df <> [] \/ has_date bio_df = false ->
  calculate_district_metrics bio_df enrol_df =
  Ok (normalize (sort_by aups_desc (map score (metric_rows bio_df enrol_df)))).
Proof.
  intros Hne. unfold calculate_district_metrics.
  rewrite with_growth_eq by assumption. reflexivity.
Qed.

(** An empty table that does have a [date] column makes the second merge
    raise. *)
Lemma calculate_district_metrics_empty_dated (enrol_df : list enrol_row) :
  calculate_district_metrics (mk_bio_table true []) enrol_df = Raise KeyError.
Proof. reflexivity. Qed.

(** Normalisation touches the [AUPS_Normalized] column only. *)
Lemma normalize_In (l : list metric) (m : metric) :
  In m (normalize l) ->
  exists m0, In m0 l /\ metric_key m = metric_key m0 /\
    m_total_biometric_updates m = m_total_biometric_updates m0 /\
    total_enrolment m = total_enrolment m0 /\ growth_rate m = growth_rate m0 /\
    update_density m = update_density m0 /\
    growth_multiplier m = growth_multiplier m0 /\ AUPS m = AUPS m0.
Proof.
  unfold normalize.
  destruct (fgt _ _); intros H; apply in_map_iff in H;
    destruct H as [m0 [<- Hin]]; exists m0; repeat split; assumption.
Qed.

Lemma normalize_keys (l : list metric) :
  map metric_key (normalize l) = map metric_key l.
Proof.
  unfold normalize. destruct (fgt _ _); rewrite map_map; reflexivity.
Qed.


Lemma score_key (r : key * Z * fl * fl) : metric_key (score r) = fst (fst (fst r)).
Proof. destruct r as [[[[s d] u] e] g]. reflexivity. Qed.




Lemma metrics_keys_perm (bio_df : bio_table) (enrol_df : list enrol_row)
    (metrics : list metric) :
  calculate_district_metrics bio_df enrol_df = Ok metrics ->
  rows bio_df <> [] \/ has_date bio_df = false ->
  Permutation (map metric_key metrics) (group_keys bio_key (rows bio_df)).
Proof.
  intros Hc Hne. rewrite calculate_district_metrics_eq in Hc by assumption.
  injection Hc as <-.
  rewrite normalize_keys.
  eapply perm_trans; [apply Permutation_map, sort_by_perm|].
  unfold metric_rows. rewrite !map_map.
  rewrite <- bio_agg_keys, <- (map_id (map fst (bio_agg (rows bio_df)))), map_map.
  erewrite map_ext; [apply Permutation_refl|].
  intros a. rewrite score_key. reflexivity.
Qed.

(** ** C1: growth rate *)



(** The split point is global: district A's own dates are 1 and 3 (mean
    2), the table's mean date is 7/3, and it is the latter that is used. *)
Example growth_rate_example :
  mean_date (rows ex_bio) = Some (7 # 3)%Q /\
  option_map (map (fun m => (m_district m, growth_rate m)))
    (match calculate_district_metrics ex_bio ex_enrol with
     | Ok ms => Some ms | Raise _ => None end) =
  Some [("B"%string, zero); ("A"%string, Fin (1 # 2)); ("C"%string, zero)] /\
  option_map (map (fun m => (m_district m, growth_rate m)))
    (match calculate_district_metrics ex_bio_undated ex_enrol with
     | Ok ms => Some ms | Raise _ => None end) =
  Some [("B"%string, zero); ("A"%string, zero); ("C"%string, zero)].
Proof. vm_compute. repeat split. Qed.


(** ** The [total_enrolment] column *)

Lemma enrol_agg_lookup (enrol_df : list enrol_row) (k : key) :
  lookup k (enrol_agg enrol_df) = enrolment_sum enrol_df k.
Proof.
  unfold enrol_agg, groupby. rewrite map_map. cbn [fst snd].
  rewrite (lookup_map_keys
             (fun k' => zsum (map age_0_5 (group_rows enrol_key k' enrol_df))
                        + zsum (map age_5_17 (group_rows enrol_key k' enrol_df))
                        + zsum (map age_18_greater (group_rows enrol_key k' enrol_df)))).
  unfold enrolment_sum, group_rows.
  destruct (in_dec key_eq_dec k (group_keys enrol_key enrol_df)) as [Hin|Hout].
  - apply group_keys_In, in_map_iff in Hin. destruct Hin as [r [Hk Hr]].
    destruct (filter (fun r0 => key_eqb (enrol_key r0) k) enrol_df) eqn:E;
      [|reflexivity].
    assert (In r []) as []. rewrite <- E. apply filter_In.
    split; [exact Hr | apply key_eqb_true, Hk].
  - destruct (filter (fun r0 => key_eqb (enrol_key r0) k) enrol_df) as [|r own] eqn:E;
      [reflexivity|].
    exfalso. apply Hout, group_keys_In.
    assert (In r (r :: own)) as Hr by (left; reflexivity).
    rewrite <- E in Hr. apply filter_In in Hr. destruct Hr as [Hr Hk].
    apply key_eqb_true in Hk. rewrite <- Hk. apply in_map, Hr.
Qed.


(** ** Scores on valid inputs

    With non-negative counters and no zero enrolment total, every raw
    score is a finite non-negative number and the normalisation lands in
    [0, 100]. *)

Lemma growth_of_finite (mid : option Q) (group : list bio_row) :
  exists g, growth_of mid group = Fin g.
Proof.
  unfold growth_of.
  destruct (0 <? updates_sum (filter (date_upto mid) group)) eqn:E.
  - apply Z.ltb_lt in E. eexists. unfold of_Z. apply fdiv_Fin.
    intros H. apply inject_Z_pos in E. rewrite H in E. apply (Qlt_irrefl 0), E.
  - exists 0%Q. reflexivity.
Qed.















(** The example of the specification: one district with 30 enrolments and
    60 updates has density 2, score 2000 and normalised score 100. *)
Example single_district_example :
  calculate_district_metrics (mk_bio_table false [mk_bio "S" "A" None 60]) ex_enrol =
  Ok [mk_metric "S" "A" 60 (Fin 30) zero (Fin 2) one (Fin 2000) (Fin 100)].
Proof. reflexivity. Qed.

(** ** C2: the enrolment floor *)

(** C2 at a district whose enrolment rows sum to zero: [fillna(1)] fills
    only the districts missing from the enrolment table, so the total
    stays [0], below the floor of [1], and the density division is a
    division by zero. *)
Theorem total_enrolment_zero_not_floored :
  calculate_district_metrics ex_bio_B ex_enrol_zero =
    Ok [mk_metric "S" "B" 90 (Fin 0) zero PInf one PInf NaN] /\
  enrolment_sum ex_enrol_zero ("S"%string, "B"%string) = Some 0 /\
  flt (Fin 0) one = true.
Proof. repeat split. Qed.

(** ** C3: normalisation *)

(** C3 at the same kind of input: the zero total makes district B's raw
    score infinite, the maximum is that infinity, and the row holding the
    maximum gets [inf / inf * 100 = NaN], which is neither [100] nor within
    [0, 100]. *)
Theorem normalized_nan_at_zero_enrolment :
  calculate_district_metrics ex_bio_AB ex_enrol_zero =
    Ok [mk_metric "S" "B" 90 (Fin 0) zero PInf one PInf NaN;
        mk_metric "S" "A" 60 (Fin 30) zero (Fin 2) one (Fin 2000) (Fin 0)] /\
  nanmax [PInf; Fin 2000] = PInf /\
  fgt PInf zero = true /\
  fle zero NaN = false /\ fle NaN (Fin 100) = false.
Proof. repeat split. Qed.

(** ** Forecaster *)




Lemma last_In {A : Type} (l : list A) (d : A) : l <> [] -> In (last l d) l.
Proof.
  induction l as [|x l IH]; intros Hne; [contradiction|].
  destruct l as [|y l]; [left; reflexivity|].
  right. apply IH. discriminate.
Qed.

(** The capped growth factor is a positive number, unless the average
    growth is [NaN], which the cap lets through. *)
Lemma growth_factor_cases (avg_growth : fl) :
  (avg_growth = NaN /\ growth_factor_of avg_growth = NaN) \/
  exists g, growth_factor_of avg_growth = Fin g /\ (95 # 100 <= g <= 105 # 100)%Q.
Proof.
  destruct avg_growth as [a| | |].
  - right. unfold growth_factor_of, py_min, py_max, fgt. simpl.
    destruct (Qltb (5 # 100) a) eqn:E1; simpl.
    + exists (Qplus' 1 (5 # 100)). split; [reflexivity|].
      vm_compute. split; discriminate.
    + destruct (Qltb a (-5 # 100)) eqn:E2.
      * exists (Qplus' 1 (-5 # 100)). split; [reflexivity|].
        vm_compute. split; discriminate.
      * exists (Qplus' 1 a). split; [reflexivity|].
        apply Qltb_ge in E1, E2. rewrite Qplus'_correct. split; lra.
  - right. exists (Qplus' 1 (5 # 100)). split; [reflexivity|].
    vm_compute. split; discriminate.
  - right. exists (Qplus' 1 (-5 # 100)). split; [reflexivity|].
    vm_compute. split; discriminate.
  - left. split; reflexivity.
Qed.

Lemma uncertainty_at_eq (i : Z) :
  exists u, uncertainty_at i = Fin u /\ (u == (5 # 100) + (1 # 100) * inject_Z i)%Q.
Proof.
  eexists. split; [reflexivity|].
  rewrite Qplus'_correct, Qmult'_correct. reflexivity.
Qed.


Lemma forecast_loop_length (n : nat) :
  forall i d g c pts,
    forecast_loop n i d g c = Ok pts -> List.length pts = n.
Proof.
  induction n as [|n IH]; simpl; intros i d g c pts H.
  - injection H as <-. reflexivity.
  - destruct (py_int (fmul c g)); [|discriminate]. simpl in H.
    destruct (py_int _); [|discriminate]. simpl in H.
    destruct (py_int _); [|discriminate]. simpl in H.
    destruct (forecast_loop n _ _ _ _) eqn:E; [|discriminate]. simpl in H.
    injection H as <-. simpl. f_equal. eapply IH, E.
Qed.




Lemma select_state_has_date (st : string) (df : bio_table) :
  has_date (select_state st df) = has_date df.
Proof. unfold select_state. destruct (string_dec st "All"); reflexivity. Qed.


(** *** When the Forecaster returns nothing *)

Lemma tail_length {A : Type} (n : nat) (l : list A) :
  List.length (tail n l) = Nat.min n (List.length l).
Proof. unfold tail. rewrite length_skipn. lia. Qed.


(** X8.  An empty (possibly state-filtered) table, a table without a [date]
    column and a table with fewer than 14 dated daily totals all give the
    empty result. *)
Lemma forecast_empty_cases (df : bio_table) (st : string) (days : Z) :
  rows (select_state st df) = [] \/ has_date df = false \/
  (List.length (daily_totals (rows (select_state st df))) < 14)%nat ->
  generate_forecast df st days = Ok [].
Proof.
  intros H. unfold generate_forecast. cbv zeta.
  rewrite select_state_has_date. unfold empty.
  destruct (rows (select_state st df)) as [|r l] eqn:Er; [reflexivity|].
  destruct (has_date df); [|reflexivity]. cbn [negb orb].
  destruct H as [H|[H|H]]; try discriminate.
  rewrite tail_length.
  destruct (Nat.min 14 (List.length (daily_totals (r :: l))) <? 14)%nat eqn:E;
    [reflexivity|].
  apply Nat.ltb_ge in E. lia.
Qed.

(** *** When the Forecaster returns [days] points *)









(** *** A flat history *)







(** The band widens with the horizon. *)
Lemma uncertainty_increasing (i j : Z) :
  i < j -> flt (uncertainty_at i) (uncertainty_at j) = true.
Proof.
  intros Hij.
  destruct (uncertainty_at_eq i) as [u [-> Hu]].
  destruct (uncertainty_at_eq j) as [w [-> Hw]].
  apply flt_Fin. rewrite Hu, Hw.
  assert (inject_Z i < inject_Z j)%Q by (rewrite <- Zlt_Qlt; exact Hij).
  lra.
Qed.


(** The documented example: fourteen daily totals of 100. *)
Example forecast_flat_100 :
  growth_factor_of (nanmean (pct_change (repeat 100 14))) = Fin 1 /\
  uncertainty_at 1 = Fin (3 # 50) /\
  feqb (uncertainty_at 1) (Fin (6 # 100)) = true /\
  generate_forecast (flat_table 100) "All" 1 = Ok [mk_point 15 100 94 106].
Proof. repeat split. Qed.

(** The same step in binary64: [0.05 + 0.01] is the double just above
    [0.06], and the three truncations are still 100, 94 and 106.  Exact and
    binary64 truncations need not agree on every day: on day 8 the upper
    bound [100 * 1.13] is 113 exactly and 112.99999999999999 in binary64. *)
Example forecast_flat_100_binary64 :
  snd (Binary64.b64_step (Binary64.b64_of_Z 100) (Binary64.b64_of_Z 1) 1)
    = Ok (100, 94, 106) /\
  SFcompare (Binary64.b64_uncertainty 1) Binary64.lit_0_06 = Some Gt /\
  snd (Binary64.b64_step (Binary64.b64_of_Z 100) (Binary64.b64_of_Z 1) 8)
    = Ok (100, 87, 112) /\
  nth 7 (match generate_forecast (flat_table 100) "All" 8 with
         | Ok pts => pts | Raise _ => [] end) (mk_point 0 0 0 0)
    = mk_point 22 100 87 113.
Proof. vm_compute. repeat split. Qed.

(** ** C4, C6, C7: a window of zero totals *)

(** C4 at fourteen days without any update: every day-over-day change is
    [0/0], the average growth is [NaN], the cap lets [NaN] through and
    [int()] raises on the first forecast value. *)
Theorem forecast_raises_on_zero_window :
  nanmean (pct_change (map snd (tail 14 (daily_totals (rows (flat_table 0)))))) = NaN /\
  growth_factor_of NaN = NaN /\
  generate_forecast (flat_table 0) "All" 30 = Raise ValueError.
Proof. repeat split. Qed.

(** C6 at a table with fifteen dated daily totals whose last fourteen are
    zero: the table is neither empty, nor undated, nor short of history,
    and yet no forecast point comes back. *)
Theorem forecast_not_returned_on_quiet_window :
  empty ex_quiet = false /\ has_date ex_quiet = true /\
  List.length (daily_totals (rows ex_quiet)) = 15%nat /\
  generate_forecast ex_quiet "All" 30 = Raise ValueError /\
  generate_forecast ex_quiet "S" 30 = Raise ValueError.
Proof. repeat split. Qed.

(** C7 at fourteen identical values [v = 0]: the average growth is [NaN]
    rather than [0], and there is no forecast equal to [v]. *)
Theorem forecast_identical_zero_values :
  map snd (tail 14 (daily_totals (rows (flat_table 0)))) = repeat 0 14 /\
  nanmean (pct_change (repeat 0 14)) = NaN /\
  generate_forecast (flat_table 0) "All" 1 = Raise ValueError.
Proof. repeat split. Qed.

(** ** C8: band ordering *)



(** ** Backtest Validator *)








(** ** C5: what the Backtest Validator returns *)



(** In [ex_history] the first half flags district B (score 5000 against
    4200), whose later volume 90 is below district A's 180. *)
Example backtest_example :
  run_backtest_validation ex_history ex_enrol =
  Ok (ValidationResult false (Fin 90) (Fin 180) (Fin (1 # 2))).
Proof. reflexivity. Qed.


(** The Backtest Validator never raises. *)
Lemma run_backtest_validation_returns (bio_df : bio_table) (enrol_df : list enrol_row) :
  exists v, run_backtest_validation bio_df enrol_df = Ok v.
Proof.
  unfold run_backtest_validation.
  destruct (has_date bio_df); cbn [negb]; [|eexists; reflexivity].
  cbv zeta.
  destruct (firstn _ _) as [|r1 t1] eqn:E1; [eexists; reflexivity|].
  destruct (skipn _ _) as [|r2 t2] eqn:E2; [eexists; reflexivity|].
  rewrite calculate_district_metrics_eq by (left; discriminate).
  eexists. reflexivity.
Qed.

(** ** C10: no stressed district in the second half *)




Example backtest_disjoint_example :
  run_backtest_validation ex_disjoint ex_enrol =
  Ok (ValidationResult false NaN (Fin 90) NaN).
Proof. reflexivity. Qed.

(** ** Feature Deriver *)

Module FrameFacts.
Import Frame.

Lemma upd_same (h : heap) (r : ref) (df : DataFrame) : upd h r df r = df.
Proof. unfold upd. destruct (Nat.eq_dec r r); congruence. Qed.

Lemma upd_other (h : heap) (r r' : ref) (df : DataFrame) :
  r' <> r -> upd h r df r' = h r'.
Proof. intros H. unfold upd. destruct (Nat.eq_dec r' r); congruence. Qed.

(** [derive df ...] assigns to the frame [df] and to no other. *)
Lemma derive_other (df : ref) (c1 c2 total part share : string) (h : heap) (r : ref) :
  r <> df -> fst (derive df c1 c2 total part share h) r = h r.
Proof.
  intros Hne. unfold derive, mbind, getitem, lift, setitem.
  repeat match goal with
         | |- context [match ?x with _ => _ end] => destruct x; cbn [fst]
         end;
    rewrite ?upd_other by exact Hne; try reflexivity.
Qed.

(** The references handed back are the ones received. *)
Lemma feature_engineering_refs (bio_df demo_df enrol_df : ref) (h : heap)
    (out : ref * ref * ref) :
  snd (feature_engineering bio_df demo_df enrol_df h) = Ok out ->
  out = (bio_df, demo_df, enrol_df).
Proof.
  unfold feature_engineering, mbind, is_empty, ret.
  repeat match goal with
         | |- context [match ?x with _ => _ end] => destruct x; cbn [snd]
         end;
    intros H; try discriminate; injection H as <-; reflexivity.
Qed.

(** A frame is left as it was unless it is the biometric or the
    demographic frame and is not empty. *)
Lemma feature_engineering_untouched (bio_df demo_df enrol_df : ref) (h : heap) (r : ref) :
  r <> bio_df \/ df_empty (h bio_df) = true ->
  r <> demo_df \/ df_empty (h demo_df) = true ->
  fst (feature_engineering bio_df demo_df enrol_df h) r = h r.
Proof.
  intros Hb Hd. unfold feature_engineering, mbind, is_empty, ret.
  set (bio_step := if negb (df_empty (h bio_df)) then _ else _).
  assert (fst (bio_step h) r = h r) as Hstep1.
  { unfold bio_step. destruct (df_empty (h bio_df)) eqn:E; cbn [negb].
    - reflexivity.
    - destruct Hb as [Hb|Hb]; [|discriminate]. apply derive_other, Hb. }
  assert (r <> demo_df \/ df_empty (fst (bio_step h) demo_df) = true) as Hd'.
  { destruct Hd as [Hd|Hd]; [left; exact Hd|].
    destruct (Nat.eq_dec r demo_df) as [<-|Hne]; [|left; exact Hne].
    right. rewrite Hstep1. exact Hd. }
  destruct (bio_step h) as [h1 [[]|e]]; cbn [fst] in *; [|exact Hstep1].
  destruct (df_empty (h1 demo_df)) eqn:E; cbn [negb fst].
  - exact Hstep1.
  - destruct Hd' as [Hd'|Hd']; [|discriminate].
    pose proof (derive_other demo_df "demo_age_5_17" "demo_age_17_"
                  "total_demographic_updates" "demo_age_17_" "adult_update_share"
                  h1 r Hd') as Hstep2.
    destruct (derive demo_df _ _ _ _ _ h1) as [h2 [[]|e]]; cbn [fst] in *;
      rewrite Hstep2; exact Hstep1.
Qed.

Lemma find_col_set_same (c : string) (s : series) (cols : list (string * series)) :
  find_col c (set_col c s cols) = Some s.
Proof.
  induction cols as [|[c' s'] cols IH]; simpl.
  - destruct (string_dec c c); congruence.
  - destruct (string_dec c c') as [E|E]; simpl.
    + destruct (string_dec c c); congruence.
    + destruct (string_dec c c'); [contradiction | exact IH].
Qed.

Lemma find_col_set_other (c c' : string) (s : series) (cols : list (string * series)) :
  c' <> c -> find_col c' (set_col c s cols) = find_col c' cols.
Proof.
  intros Hne. induction cols as [|[c0 s0] cols IH]; simpl.
  - destruct (string_dec c' c); [contradiction | reflexivity].
  - destruct (string_dec c c0) as [E|E]; simpl.
    + subst c0. destruct (string_dec c' c); [contradiction | reflexivity].
    + destruct (string_dec c' c0); [reflexivity | exact IH].
Qed.

(** On integer counters the derivation succeeds and assigns the sum and
    the elementwise quotient; a zero total gives [NaN] or an infinity in
    the share, never an exception. *)
Lemma derive_int (df : ref) (c1 c2 total part share : string) (h : heap)
    (l1 l2 lp : list Z) :
  find_col c1 (columns (h df)) = Some (SInt l1) ->
  find_col c2 (columns (h df)) = Some (SInt l2) ->
  find_col part (columns (h df)) = Some (SInt lp) ->
  part <> total ->
  let totals := zip_with Z.add l1 l2 in
  snd (derive df c1 c2 total part share h) = Ok tt /\
  fst (derive df c1 c2 total part share h) df =
    mk_frame (index_len (h df))
      (set_col share
         (SFloat (zip_with (fun u v => fdiv (of_Z u) (of_Z v)) lp totals))
         (set_col total (SInt totals) (columns (h df)))).
Proof.
  intros H1 H2 Hp Hne. cbv zeta.
  unfold derive, mbind, getitem, lift, setitem.
  rewrite H1, H2. cbn [series_add]. rewrite !upd_same. cbn [columns index_len].
  rewrite find_col_set_other by exact Hne. rewrite Hp, find_col_set_same.
  cbn [series_div fst snd]. rewrite upd_same. split; reflexivity.
Qed.

End FrameFacts.

(** What the Feature Deriver leaves in [ex_heap]: the biometric frame gains
    its two columns, with [NaN] as the share of the row without updates. *)
Example feature_engineering_example :
  let out := Frame.feature_engineering 0%nat 1%nat 2%nat ex_heap in
  snd out = Ok (0%nat, 1%nat, 2%nat) /\
  Frame.columns (fst out 0%nat) =
    [("bio_age_5_17"%string, Frame.SInt [1; 0]);
     ("bio_age_17_"%string, Frame.SInt [3; 0]);
     ("total_biometric_updates"%string, Frame.SInt [4; 0]);
     ("child_teen_update_share"%string, Frame.SFloat [Fin (1 # 4); NaN])] /\
  fst out 1%nat = ex_heap 1%nat /\
  fst out 2%nat = ex_heap 2%nat.
Proof. vm_compute. repeat split. Qed.

(** ** C9: frames the Feature Deriver leaves alone *)

(** C9.  The Feature Deriver hands back the three frames it received; a
    biometric or demographic frame that is empty is left exactly as it was,
    and so is the enrolment frame, whatever the inputs contain and whether
    or not the call raises (the enrolment table being a frame of its own). *)
Theorem feature_engineering_frame (bio_df demo_df enrol_df : Frame.ref)
    (h : Frame.heap) :
  enrol_df <> bio_df ->
  enrol_df <> demo_df ->
  let h' := fst (Frame.feature_engineering bio_df demo_df enrol_df h) in
  let res := snd (Frame.feature_engineering bio_df demo_df enrol_df h) in
  (forall out, res = Ok out -> out = (bio_df, demo_df, enrol_df)) /\
  (Frame.df_empty (h bio_df) = true -> h' bio_df = h bio_df) /\
  (Frame.df_empty (h demo_df) = true -> h' demo_df = h demo_df) /\
  (Frame.df_empty (h bio_df) = true -> Frame.df_empty (h demo_df) = true ->
   res = Ok (bio_df, demo_df, enrol_df)) /\
  h' enrol_df = h enrol_df.
Proof.
  intros Hb Hd. cbv zeta. repeat split.
  - intros out. apply FrameFacts.feature_engineering_refs.
  - intros He. apply FrameFacts.feature_engineering_untouched.
    + right. exact He.
    + destruct (Nat.eq_dec bio_df demo_df) as [<-|Hne]; [right | left]; assumption.
  - intros He. apply FrameFacts.feature_engineering_untouched.
    + destruct (Nat.eq_dec demo_df bio_df) as [<-|Hne]; [right | left]; assumption.
    + right. exact He.
  - intros Heb Hed.
    unfold Frame.feature_engineering, Frame.mbind, Frame.is_empty, Frame.ret.
    rewrite Heb. cbn [negb snd]. rewrite Hed. reflexivity.
  - apply FrameFacts.feature_engineering_untouched; left; assumption.
Qed.

Lemma feature_engineering_frame_witness :
  2%nat <> 0%nat /\ 2%nat <> 1%nat /\
  let h' := fst (Frame.feature_engineering 0%nat 1%nat 2%nat ex_heap) in
  let res := snd (Frame.feature_engineering 0%nat 1%nat 2%nat ex_heap) in
  (forall out, res = Ok out -> out = (0%nat, 1%nat, 2%nat)) /\
  (Frame.df_empty (ex_heap 0%nat) = true -> h' 0%nat = ex_heap 0%nat) /\
  (Frame.df_empty (ex_heap 1%nat) = true -> h' 1%nat = ex_heap 1%nat) /\
  (Frame.df_empty (ex_heap 0%nat) = true -> Frame.df_empty (ex_heap 1%nat) = true ->
   res = Ok (0%nat, 1%nat, 2%nat)) /\
  h' 2%nat = ex_heap 2%nat.
Proof.
  split; [discriminate|]. split; [discriminate|].
  apply (feature_engineering_frame 0%nat 1%nat 2%nat ex_heap); discriminate.
Defined.

(* ================================================================== *)
(** * Further properties of the code *)

(** ** Sorted output of [sort_by] *)

Section SortedFacts.
Context {A : Type} (leb : A -> A -> bool).
Hypothesis leb_total : forall a b, leb a b = true \/ leb b a = true.
Hypothesis leb_trans : forall a b c, leb a b = true -> leb b c = true -> leb a c = true.

Lemma insert_sorted_In (x y : A) (l : list A) :
  In y (insert_sorted leb x l) <-> y = x \/ In y l.
Proof.
  split.
  - intros H. apply (Permutation_in _ (insert_sorted_perm leb x l)) in H.
    destruct H as [<-|H]; [left; reflexivity | right; exact H].
  - intros H. apply (Permutation_in _ (Permutation_sym (insert_sorted_perm leb x l))).
    destruct H as [->|H]; [left; reflexivity | right; exact H].
Qed.

Lemma insert_sorted_ordered (x : A) (l : list A) :
  StronglySorted (fun a b => leb a b = true) l ->
  StronglySorted (fun a b => leb a b = true) (insert_sorted leb x l).
Proof.
  induction l as [|y l IH]; intros Hs; simpl.
  - constructor; constructor.
  - inversion Hs as [|? ? Hl Hy]; subst.
    destruct (leb x y) eqn:E.
    + constructor; [exact Hs|]. constructor; [exact E|].
      rewrite Forall_forall in *. intros z Hz. eapply leb_trans; [exact E | apply Hy, Hz].
    + constructor; [apply IH, Hl|].
      rewrite Forall_forall in *. intros z Hz. apply insert_sorted_In in Hz.
      destruct Hz as [->|Hz]; [|apply Hy, Hz].
      destruct (leb_total x y) as [H|H]; [congruence | exact H].
Qed.

Lemma sort_by_ordered (l : list A) :
  StronglySorted (fun a b => leb a b = true) (sort_by leb l).
Proof.
  induction l as [|x l IH]; simpl; [constructor|].
  apply insert_sorted_ordered, IH.
Qed.

(** An antisymmetric order leaves one way only to sort a list. *)
Lemma ordered_perm_eq (l1 l2 : list A) :
  (forall a b, leb a b = true -> leb b a = true -> a = b) ->
  StronglySorted (fun a b => leb a b = true) l1 ->
  StronglySorted (fun a b => leb a b = true) l2 ->
  Permutation l1 l2 -> l1 = l2.
Proof.
  intros Hanti. revert l2.
  induction l1 as [|x l1 IH]; intros l2 H1 H2 Hp.
  - apply Permutation_nil in Hp. subst. reflexivity.
  - destruct l2 as [|y l2];
      [apply Permutation_sym, Permutation_nil in Hp; discriminate|].
    inversion H1 as [|? ? Hs1 Hx]; inversion H2 as [|? ? Hs2 Hy]; subst.
    rewrite Forall_forall in Hx, Hy.
    assert (x = y) as <-.
    { assert (In x (y :: l2)) as Hin1
        by (apply (Permutation_in _ Hp); left; reflexivity).
      assert (In y (x :: l1)) as Hin2
        by (apply (Permutation_in _ (Permutation_sym Hp)); left; reflexivity).
      destruct Hin1 as [->|Hin1]; [reflexivity|].
      destruct Hin2 as [->|Hin2]; [reflexivity|].
      apply Hanti; [apply Hx, Hin2 | apply Hy, Hin1]. }
    f_equal. apply IH; try assumption.
    apply Permutation_cons_inv in Hp. exact Hp.
Qed.

Lemma sort_by_perm_eq (l1 l2 : list A) :
  (forall a b, leb a b = true -> leb b a = true -> a = b) ->
  Permutation l1 l2 -> sort_by leb l1 = sort_by leb l2.
Proof.
  intros Hanti Hp. apply ordered_perm_eq; try assumption; try apply sort_by_ordered.
  eapply perm_trans; [apply sort_by_perm|].
  eapply perm_trans; [exact Hp | apply Permutation_sym, sort_by_perm].
Qed.
End SortedFacts.

(** ** The order on [fl] *)

Lemma fle_refl_nonnan (x : fl) : is_nan x = false -> fle x x = true.
Proof.
  destruct x as [a| | |]; intros H; try discriminate; try reflexivity.
  apply fle_Fin, Qle_refl.
Qed.

Lemma fle_total_nonnan (x y : fl) :
  is_nan x = false -> is_nan y = false -> fle x y = true \/ fle y x = true.
Proof.
  destruct x as [a| | |], y as [b| | |]; intros Hx Hy; try discriminate;
    try (left; reflexivity); try (right; reflexivity).
  destruct (Qlt_le_dec b a) as [H|H].
  - right. apply fle_Fin, Qlt_le_weak, H.
  - left. apply fle_Fin, H.
Qed.

Lemma fle_trans (x y z : fl) : fle x y = true -> fle y z = true -> fle x z = true.
Proof.
  destruct x as [a| | |], y as [b| | |], z as [c| | |]; intros H1 H2;
    try discriminate; try reflexivity.
  apply fle_Fin. apply fle_Fin in H1, H2. apply Qle_trans with b; assumption.
Qed.

Lemma fle_nan_l (x : fl) : fle NaN x = false.
Proof. destruct x; reflexivity. Qed.

Lemma fle_nan_r (x : fl) : fle x NaN = false.
Proof. destruct x; reflexivity. Qed.

Lemma aups_desc_total (m1 m2 : metric) :
  aups_desc m1 m2 = true \/ aups_desc m2 m1 = true.
Proof.
  unfold aups_desc.
  destruct (is_nan (AUPS m2)) eqn:E2; [left; reflexivity|].
  destruct (is_nan (AUPS m1)) eqn:E1; [right; reflexivity|].
  destruct (fle_total_nonnan _ _ E1 E2); [right | left]; assumption.
Qed.

Lemma aups_desc_trans (m1 m2 m3 : metric) :
  aups_desc m1 m2 = true -> aups_desc m2 m3 = true -> aups_desc m1 m3 = true.
Proof.
  unfold aups_desc.
  destruct (is_nan (AUPS m3)) eqn:E3; [reflexivity|].
  destruct (is_nan (AUPS m2)) eqn:E2; [discriminate|].
  destruct (is_nan (AUPS m1)) eqn:E1; [discriminate|].
  intros H1 H2. eapply fle_trans; eassumption.
Qed.

(** ** District Metrics Engine: shape of the output *)

Lemma metrics_ok_cases (bio_df : bio_table) (enrol_df : list enrol_row)
    (metrics : list metric) :
  calculate_district_metrics bio_df enrol_df = Ok metrics ->
  rows bio_df <> [] \/ has_date bio_df = false.
Proof.
  intros Hc. destruct bio_df as [[|] [|r l]].
  - rewrite calculate_district_metrics_empty_dated in Hc. discriminate.
  - left. discriminate.
  - right. reflexivity.
  - right. reflexivity.
Qed.


(** X2.  The output has exactly one row per district of the biometric
    table: the (state, district) keys of the rows are pairwise distinct and
    are the keys that occur in the biometric table.  A district that occurs
    in the enrolment table only gets no row (the merge is a left merge). *)
Theorem metrics_one_row_per_district (bio_df : bio_table) (enrol_df : list enrol_row)
    (metrics : list metric) :
  calculate_district_metrics bio_df enrol_df = Ok metrics ->
  NoDup (map metric_key metrics) /\
  (forall k, In k (map metric_key metrics) <-> In k (map bio_key (rows bio_df))) /\
  List.length metrics = List.length (nodup key_eq_dec (map bio_key (rows bio_df))).
Proof.
  intros Hc. pose proof (metrics_ok_cases _ _ _ Hc) as Hne.
  pose proof (metrics_keys_perm _ _ _ Hc Hne) as Hperm.
  split; [|split].
  - eapply Permutation_NoDup; [apply Permutation_sym, Hperm | apply group_keys_NoDup].
  - intros k. rewrite <- (group_keys_In bio_key). split.
    + apply Permutation_in, Hperm.
    + apply Permutation_in, Permutation_sym, Hperm.
  - rewrite <- (length_map metric_key). rewrite (Permutation_length Hperm).
    unfold group_keys. apply sort_by_length.
Qed.

Lemma metrics_one_row_per_district_witness :
  calculate_district_metrics ex_bio ex_enrol = Ok ex_metrics /\
  (NoDup (map metric_key ex_metrics) /\
   (forall k, In k (map metric_key ex_metrics) <-> In k (map bio_key (rows ex_bio))) /\
   List.length ex_metrics = List.length (nodup key_eq_dec (map bio_key (rows ex_bio)))).
Proof.
  split; [reflexivity|].
  apply (metrics_one_row_per_district ex_bio ex_enrol ex_metrics). reflexivity.
Defined.



Lemma metrics_row_scored (bio_df : bio_table) (enrol_df : list enrol_row)
    (metrics : list metric) (m : metric) :
  calculate_district_metrics bio_df enrol_df = Ok metrics ->
  In m metrics ->
  exists a, In a (bio_agg (rows bio_df)) /\
    let r := (a, enrolment_for enrol_df (fst a), growth_for bio_df (fst a)) in
    metric_key m = fst a /\
    m_total_biometric_updates m = snd a /\
    total_enrolment m = total_enrolment (score r) /\
    growth_rate m = growth_rate (score r) /\
    update_density m = update_density (score r) /\
    growth_multiplier m = growth_multiplier (score r) /\
    AUPS m = AUPS (score r).
Proof.
  intros Hc Hin.
  rewrite calculate_district_metrics_eq in Hc by (eapply metrics_ok_cases, Hc).
  injection Hc as <-. apply normalize_In in Hin.
  destruct Hin as [m0 [Hin [Hk [Hu [He [Hg [Hd [Hm Ha]]]]]]]].
  apply sort_by_In, in_map_iff in Hin. destruct Hin as [r [<- Hr]].
  unfold metric_rows in Hr. apply in_map_iff in Hr. destruct Hr as [a [<- Hin]].
  exists a. split; [exact Hin|]. cbv zeta.
  rewrite Hk, Hu, He, Hg, Hd, Hm, Ha, score_key.
  destruct a as [[s d] u]. repeat split.
Qed.

(** X4.  In every output row the growth rate is a finite number and
    [growth_multiplier] lies in [0.5, 3.0]; it is [1 + growth_rate] when the
    growth rate is within [-0.5, 2.0], so a growth rate of zero (in
    particular a table without dates) leaves the multiplier at [1]. *)
Theorem growth_multiplier_in_range (bio_df : bio_table) (enrol_df : list enrol_row)
    (metrics : list metric) (m : metric) :
  calculate_district_metrics bio_df enrol_df = Ok metrics ->
  In m metrics ->
  exists g mu,
    growth_rate m = Fin g /\ growth_multiplier m = Fin mu /\
    (1 # 2 <= mu <= 3)%Q /\
    ((- (1 # 2) <= g <= 2)%Q -> (mu == 1 + g)%Q) /\
    (has_date bio_df = false -> g = 0%Q /\ mu = 1%Q).
Proof.
  intros Hc Hin.
  destruct (metrics_row_scored _ _ _ _ Hc Hin)
    as [[k u] [_ [_ [_ [_ [Hg [_ [Hm _]]]]]]]].
  cbn [fst] in Hg, Hm.
  assert (exists g, growth_for bio_df k = Fin g /\
                    (has_date bio_df = false -> g = 0%Q)) as [g [Hgf Hund]].
  { unfold growth_for. destruct (has_date bio_df).
    - destruct (growth_of_finite (mean_date (rows bio_df))
                  (group_rows bio_key k (rows bio_df))) as [g Hgo].
      exists g. split; [exact Hgo | discriminate].
    - exists 0%Q. split; reflexivity. }
  unfold score in Hg, Hm. cbn [growth_rate growth_multiplier] in Hg, Hm.
  rewrite Hgf in Hg, Hm.
  unfold clip, fgt in Hm. cbn [is_nan flt] in Hm.
  exists g. destruct (Qltb g (-1 # 2)) eqn:E1.
  - exists (Qplus' 1 (-1 # 2)). split; [exact Hg|]. split; [exact Hm|].
    apply Qltb_lt in E1. split; [vm_compute; split; discriminate|].
    split; [intros [Hlo _]; exfalso; apply (Qlt_not_le _ _ E1); exact Hlo|].
    intros Hd. rewrite (Hund Hd) in E1. vm_compute in E1. discriminate.
  - apply Qltb_ge in E1. destruct (Qltb 2 g) eqn:E2.
    + exists (Qplus' 1 2). split; [exact Hg|]. split; [exact Hm|].
      apply Qltb_lt in E2. split; [vm_compute; split; discriminate|].
      split; [intros [_ Hhi]; exfalso; apply (Qlt_not_le _ _ E2); exact Hhi|].
      intros Hd. rewrite (Hund Hd) in E2. vm_compute in E2. discriminate.
    + apply Qltb_ge in E2. exists (Qplus' 1 g).
      split; [exact Hg|]. split; [exact Hm|].
      split; [rewrite Qplus'_correct; split; lra|].
      split; [intros _; apply Qplus'_correct|].
      intros Hd. rewrite (Hund Hd). split; reflexivity.
Qed.

Lemma growth_multiplier_in_range_witness :
  calculate_district_metrics ex_bio ex_enrol = Ok ex_metrics /\
  In (nth 1 ex_metrics (score (("", ""), 0, NaN, NaN))%string) ex_metrics /\
  exists g mu,
    growth_rate (nth 1 ex_metrics (score (("", ""), 0, NaN, NaN))%string) = Fin g /\
    growth_multiplier (nth 1 ex_metrics (score (("", ""), 0, NaN, NaN))%string) = Fin mu /\
    (1 # 2 <= mu <= 3)%Q /\
    ((- (1 # 2) <= g <= 2)%Q -> (mu == 1 + g)%Q) /\
    (has_date ex_bio = false -> g = 0%Q /\ mu = 1%Q).
Proof.
  split; [reflexivity|]. split; [right; left; reflexivity|].
  apply (growth_multiplier_in_range ex_bio ex_enrol ex_metrics);
    [reflexivity | right; left; reflexivity].
Defined.






Lemma StronglySorted_map_rel {A B : Type} (R : A -> A -> Prop) (S : B -> B -> Prop)
    (f : A -> B) (l : list A) :
  (forall a b, R a b -> S (f a) (f b)) ->
  StronglySorted R l -> StronglySorted S (map f l).
Proof.
  intros Hrs. induction 1 as [|a l Hs IH Hall]; simpl; constructor; [exact IH|].
  rewrite Forall_forall in *. intros b Hb. apply in_map_iff in Hb.
  destruct Hb as [x [<- Hx]]. apply Hrs, Hall, Hx.
Qed.

(** X6.  The output is ordered by descending raw score: of two rows the
    earlier one has the larger or equal [AUPS], and rows whose [AUPS] is
    [NaN] come after all others. *)
Theorem metrics_sorted_descending (bio_df : bio_table) (enrol_df : list enrol_row)
    (metrics : list metric) :
  calculate_district_metrics bio_df enrol_df = Ok metrics ->
  StronglySorted
    (fun m1 m2 => is_nan (AUPS m2) = true \/
                  (is_nan (AUPS m1) = false /\ fle (AUPS m2) (AUPS m1) = true))
    metrics.
Proof.
  intros Hc.
  rewrite calculate_district_metrics_eq in Hc by (eapply metrics_ok_cases, Hc).
  injection Hc as <-.
  pose proof (sort_by_ordered aups_desc aups_desc_total aups_desc_trans
                (map score (metric_rows bio_df enrol_df))) as Hs.
  assert (forall f, StronglySorted
            (fun m1 m2 => is_nan (AUPS m2) = true \/
                          (is_nan (AUPS m1) = false /\ fle (AUPS m2) (AUPS m1) = true))
            (map (set_normalized f)
                 (sort_by aups_desc (map score (metric_rows bio_df enrol_df))))) as Hmap.
  { intros f. eapply StronglySorted_map_rel; [|exact Hs].
    intros a b Hab. cbn [set_normalized AUPS]. unfold aups_desc in Hab.
    destruct (is_nan (AUPS b)); [left; reflexivity|].
    destruct (is_nan (AUPS a)); [discriminate|]. right. split; [reflexivity | exact Hab]. }
  unfold normalize. destruct (fgt _ _); apply Hmap.
Qed.

Lemma metrics_sorted_descending_witness :
  calculate_district_metrics ex_bio ex_enrol = Ok ex_metrics /\
  StronglySorted
    (fun m1 m2 => is_nan (AUPS m2) = true \/
                  (is_nan (AUPS m1) = false /\ fle (AUPS m2) (AUPS m1) = true))
    ex_metrics.
Proof.
  split; [reflexivity|].
  apply (metrics_sorted_descending ex_bio ex_enrol ex_metrics). reflexivity.
Defined.




(** ** Forecaster: results and their shape *)

Lemma forecast_empty_cases_witness :
  (rows (select_state "T" (flat_table 100)) = [] \/
   has_date (flat_table 100) = false \/
   (List.length (daily_totals (rows (select_state "T" (flat_table 100)))) < 14)%nat) /\
  generate_forecast (flat_table 100) "T" 30 = Ok [].
Proof.
  split; [left; reflexivity|].
  apply (forecast_empty_cases (flat_table 100) "T" 30). left. reflexivity.
Defined.



Lemma all_zero_repeat (l : list Z) :
  (forall x, In x l -> x = 0) -> l = repeat 0 (List.length l).
Proof.
  induction l as [|x l IH]; intros H; [reflexivity|].
  cbn [List.length repeat]. rewrite (H x (or_introl eq_refl)). f_equal.
  apply IH. intros y Hy. apply H. right. exact Hy.
Qed.

(** X10.  When the table has at least 14 dated daily totals and the last
    14 of them are all zero, every day-over-day change is [0/0], and a call
    that asks for at least one day raises [ValueError] (from [int] applied
    to [NaN]) instead of returning a forecast. *)
Theorem forecast_raises_on_zero_tail (df : bio_table) (st : string) (days : Z) :
  has_date df = true ->
  (14 <= List.length (daily_totals (rows (select_state st df))))%nat ->
  (forall p, In p (tail 14 (daily_totals (rows (select_state st df)))) -> snd p = 0) ->
  0 < days ->
  generate_forecast df st days = Raise ValueError.
Proof.
  intros Hd Hlen Hzero Hdays.
  unfold generate_forecast. cbv zeta. rewrite select_state_has_date, Hd.
  set (df' := select_state st df) in *.
  assert (rows df' <> []) as Hrows.
  { intros E. rewrite E in Hlen. simpl in Hlen. lia. }
  unfold empty. destruct (rows df') as [|r0 l0] eqn:Er; [contradiction|].
  rewrite <- Er in *. cbn [negb orb].
  set (last_14 := tail 14 (daily_totals (rows df'))) in *.
  assert (List.length last_14 = 14%nat) as H14
    by (unfold last_14; rewrite tail_length; lia).
  rewrite H14. cbn [Nat.ltb Nat.leb].
  assert (map snd last_14 = repeat 0 14) as Hvals.
  { rewrite <- H14, <- (length_map snd). apply all_zero_repeat.
    intros x Hx. apply in_map_iff in Hx. destruct Hx as [p [<- Hp]].
    apply Hzero, Hp. }
  rewrite Hvals.
  change (growth_factor_of (nanmean (pct_change (repeat 0 14)))) with NaN.
  destruct (Z.to_nat days) as [|n] eqn:En; [lia|].
  cbn [forecast_loop]. unfold of_Z. cbn [fmul py_int bind]. reflexivity.
Qed.

Lemma forecast_raises_on_zero_tail_witness :
  has_date ex_quiet = true /\
  (14 <= List.length (daily_totals (rows (select_state "S" ex_quiet))))%nat /\
  (forall p, In p (tail 14 (daily_totals (rows (select_state "S" ex_quiet)))) -> snd p = 0) /\
  0 < 7 /\
  generate_forecast ex_quiet "S" 7 = Raise ValueError.
Proof.
  assert (forall p, In p (tail 14 (daily_totals (rows (select_state "S" ex_quiet)))) ->
                    snd p = 0) as Hz.
  { intros p Hp. vm_compute in Hp.
    repeat (destruct Hp as [<-|Hp]; [reflexivity|]). destruct Hp. }
  split; [reflexivity|]. split; [vm_compute; repeat constructor|].
  split; [exact Hz|]. split; [lia|].
  apply (forecast_raises_on_zero_tail ex_quiet "S" 7);
    [reflexivity | vm_compute; repeat constructor | exact Hz | lia].
Defined.

(** X12.  The growth factor is capped: it is [NaN] exactly when the average
    growth is [NaN], and otherwise a number within [0.95, 1.05], whatever
    the average growth (infinite growth from a zero day included); an
    average growth within [-0.05, 0.05] is applied as it is. *)
Theorem growth_factor_capped (avg_growth : fl) :
  (is_nan avg_growth = true /\ growth_factor_of avg_growth = NaN) \/
  (is_nan avg_growth = false /\
   exists g, growth_factor_of avg_growth = Fin g /\ (95 # 100 <= g <= 105 # 100)%Q /\
     forall a, avg_growth = Fin a -> (- (5 # 100) <= a <= 5 # 100)%Q -> (g == 1 + a)%Q).
Proof.
  destruct avg_growth as [a| | |].
  - right. split; [reflexivity|].
    destruct (growth_factor_cases (Fin a)) as [[H _]|[g [Hg Hr]]]; [discriminate|].
    exists g. split; [exact Hg|]. split; [exact Hr|].
    intros a' [= <-] [Hlo Hhi].
    unfold growth_factor_of, py_min, py_max, fgt in Hg. cbn [flt] in Hg.
    assert (Qltb (5 # 100) a = false) as E1 by (apply Qltb_ge; exact Hhi).
    rewrite E1 in Hg. cbn [flt] in Hg.
    assert (Qltb a (-5 # 100) = false) as E2 by (apply Qltb_ge; exact Hlo).
    rewrite E2 in Hg. cbn [fadd one] in Hg. injection Hg as <-.
    apply Qplus'_correct.
  - right. split; [reflexivity|]. exists (Qplus' 1 (5 # 100)).
    split; [reflexivity|]. split; [vm_compute; split; discriminate | discriminate].
  - right. split; [reflexivity|]. exists (Qplus' 1 (-5 # 100)).
    split; [reflexivity|]. split; [vm_compute; split; discriminate | discriminate].
  - left. split; reflexivity.
Qed.

Lemma forecast_loop_dates (n : nat) :
  forall i d g c pts,
    forecast_loop n i d g c = Ok pts ->
    map fp_date pts = map (fun j => d + (i + Z.of_nat j)) (seq 0 n).
Proof.
  induction n as [|n IH]; intros i d g c pts H.
  - injection H as <-. reflexivity.
  - cbn [forecast_loop] in H.
    destruct (py_int (fmul c g)); [|discriminate]. cbn [bind] in H.
    destruct (py_int _); [|discriminate]. cbn [bind] in H.
    destruct (py_int _); [|discriminate]. cbn [bind] in H.
    destruct (forecast_loop n (i + 1) d g (fmul c g)) as [rest|] eqn:E; [|discriminate].
    cbn [bind] in H. injection H as <-.
    cbn [map seq fp_date]. f_equal; [f_equal; lia|].
    rewrite (IH _ _ _ _ _ E), <- seq_shift, map_map.
    apply map_ext. intros j. lia.
Qed.

Lemma dates_of_In (l : list bio_row) (d : Z) :
  In d (dates_of l) <-> exists r, In r l /\ date r = Some d.
Proof.
  unfold dates_of. rewrite in_flat_map. split.
  - intros [r [Hr Hd]]. exists r. split; [exact Hr|].
    destruct (date r) as [d'|]; [|destruct Hd].
    destruct Hd as [->|[]]. reflexivity.
  - intros [r [Hr Hd]]. exists r. split; [exact Hr|]. rewrite Hd. left. reflexivity.
Qed.

Lemma daily_totals_dates (l : list bio_row) :
  map fst (daily_totals l) = sort_by Z.leb (nodup Z.eq_dec (dates_of l)).
Proof. unfold daily_totals. rewrite map_map. apply map_id. Qed.

Lemma last_skipn {A : Type} (k : nat) (l : list A) (d : A) :
  skipn k l <> [] -> last (skipn k l) d = last l d.
Proof.
  revert l. induction k as [|k IH]; intros l H; [reflexivity|].
  destruct l as [|x l]; [contradiction|]. cbn [skipn] in *.
  rewrite (IH l H). destruct l as [|y l]; [|reflexivity].
  rewrite skipn_nil in H. contradiction.
Qed.

Lemma last_map {A B : Type} (f : A -> B) (l : list A) (d : A) :
  last (map f l) (f d) = f (last l d).
Proof.
  induction l as [|x l IH]; [reflexivity|].
  destruct l as [|y l]; [reflexivity|]. exact IH.
Qed.

Lemma last_greatest (l : list Z) (d x : Z) :
  StronglySorted (fun a b => (a <=? b) = true) l -> In x l -> x <= last l d.
Proof.
  induction 1 as [|a l Hs IH Hall]; intros Hin; [destruct Hin|].
  destruct l as [|b l].
  - destruct Hin as [->|[]]. cbn. lia.
  - change (last (a :: b :: l) d) with (last (b :: l) d).
    destruct Hin as [<-|Hin]; [|apply IH, Hin].
    rewrite Forall_forall in Hall.
    apply Z.leb_le, Hall, last_In. discriminate.
Qed.

Lemma Zleb_total (a b : Z) : (a <=? b) = true \/ (b <=? a) = true.
Proof. rewrite !Z.leb_le. lia. Qed.

Lemma Zleb_trans (a b c : Z) : (a <=? b) = true -> (b <=? c) = true -> (a <=? c) = true.
Proof. rewrite !Z.leb_le. lia. Qed.

Lemma Zleb_antisym (a b : Z) : (a <=? b) = true -> (b <=? a) = true -> a = b.
Proof. rewrite !Z.leb_le. lia. Qed.

(** X11.  The forecast points are dated on consecutive days: the first on
    the day after the latest date of the (state-filtered) table, the
    [j]-th [j] days after it. *)
Theorem forecast_dates_consecutive (df : bio_table) (st : string) (days : Z)
    (pts : list forecast_point) :
  generate_forecast df st days = Ok pts ->
  pts <> [] ->
  exists last_date,
    (exists r, In r (rows (select_state st df)) /\ date r = Some last_date) /\
    (forall r d, In r (rows (select_state st df)) -> date r = Some d -> d <= last_date) /\
    map fp_date pts = map (fun j => last_date + Z.of_nat j) (seq 1 (List.length pts)).
Proof.
  intros H Hne. unfold generate_forecast in H. cbv zeta in H.
  set (df' := select_state st df) in *.
  destruct (empty df' || negb (has_date df')); [injection H as <-; contradiction|].
  set (daily := daily_totals (rows df')) in *.
  destruct (List.length (tail 14 daily) <? 14)%nat eqn:E14;
    [injection H as <-; contradiction|].
  apply Nat.ltb_ge in E14.
  assert (tail 14 daily <> []) as Htail
    by (intros E; rewrite E in E14; simpl in E14; lia).
  pose proof (forecast_loop_length _ _ _ _ _ _ H) as Hlen.
  pose proof (forecast_loop_dates _ _ _ _ _ _ H) as Hdates.
  set (last_date := fst (last (tail 14 daily) (0, 0))) in *.
  assert (last_date = last (map fst daily) 0) as Hlast.
  { unfold last_date, tail. rewrite (last_skipn _ _ _ Htail).
    symmetry. apply (last_map fst daily (0, 0)). }
  assert (map fst daily <> []) as Hdne.
  { intros E. apply map_eq_nil in E. apply Htail. unfold tail. rewrite E.
    apply skipn_nil. }
  exists last_date. split; [|split].
  - apply dates_of_In. apply (nodup_In Z.eq_dec). apply (sort_by_In Z.leb).
    rewrite <- daily_totals_dates. fold daily. rewrite Hlast. apply last_In, Hdne.
  - intros r d Hr Hd. rewrite Hlast. apply last_greatest.
    + unfold daily. rewrite daily_totals_dates.
      apply (sort_by_ordered Z.leb Zleb_total Zleb_trans).
    + unfold daily. rewrite daily_totals_dates. apply sort_by_In, nodup_In.
      apply dates_of_In. exists r. split; assumption.
  - rewrite Hdates, Hlen, <- seq_shift, map_map. apply map_ext. intros j. lia.
Qed.

Lemma forecast_dates_consecutive_witness :
  generate_forecast (flat_table 100) "All" 2 =
    Ok [mk_point 15 100 94 106; mk_point 16 100 93 107] /\
  [mk_point 15 100 94 106; mk_point 16 100 93 107] <> [] /\
  exists last_date,
    (exists r, In r (rows (select_state "All" (flat_table 100))) /\ date r = Some last_date) /\
    (forall r d, In r (rows (select_state "All" (flat_table 100))) ->
                 date r = Some d -> d <= last_date) /\
    map fp_date [mk_point 15 100 94 106; mk_point 16 100 93 107] =
      map (fun j => last_date + Z.of_nat j)
          (seq 1 (List.length [mk_point 15 100 94 106; mk_point 16 100 93 107])).
Proof.
  split; [reflexivity|]. split; [discriminate|].
  apply (forecast_dates_consecutive (flat_table 100) "All" 2);
    [reflexivity | discriminate].
Defined.






(** *** Independence of the row order *)

Lemma nodup_perm (l1 l2 : list Z) :
  Permutation l1 l2 -> Permutation (nodup Z.eq_dec l1) (nodup Z.eq_dec l2).
Proof.
  intros Hp. apply NoDup_Permutation; try apply NoDup_nodup.
  intros x. rewrite !nodup_In. split; apply Permutation_in;
    [exact Hp | apply Permutation_sym, Hp].
Qed.

Lemma daily_totals_perm (l1 l2 : list bio_row) :
  Permutation l1 l2 -> daily_totals l1 = daily_totals l2.
Proof.
  intros Hp. unfold daily_totals.
  rewrite (sort_by_perm_eq Z.leb Zleb_total Zleb_trans _ _ Zleb_antisym
             (nodup_perm _ _ (dates_of_perm _ _ Hp))).
  apply map_ext. intros d. f_equal.
  apply updates_sum_perm, filter_perm, Hp.
Qed.

(** X15.  The forecast does not depend on the order of the rows: two
    tables with the same rows in a different order (and the same columns)
    give the same result, exception included. *)
Theorem forecast_row_order_independent (df1 df2 : bio_table) (st : string) (days : Z) :
  has_date df1 = has_date df2 ->
  Permutation (rows df1) (rows df2) ->
  generate_forecast df1 st days = generate_forecast df2 st days.
Proof.
  intros Hd Hp. unfold generate_forecast. cbv zeta.
  assert (Permutation (rows (select_state st df1)) (rows (select_state st df2))) as Hp'.
  { unfold select_state. destruct (string_dec st "All"); [exact Hp|].
    cbn [rows]. apply filter_perm, Hp. }
  rewrite !select_state_has_date, Hd.
  rewrite (daily_totals_perm _ _ Hp').
  assert (empty (select_state st df1) = empty (select_state st df2)) as ->;
    [|reflexivity].
  unfold empty.
  destruct (rows (select_state st df1)) as [|r1 l1],
           (rows (select_state st df2)) as [|r2 l2]; try reflexivity.
  - apply Permutation_nil in Hp'. discriminate.
  - apply Permutation_sym, Permutation_nil in Hp'. discriminate.
Qed.

Lemma forecast_row_order_independent_witness :
  has_date (flat_table 100) = has_date (mk_bio_table true (rev (rows (flat_table 100)))) /\
  Permutation (rows (flat_table 100))
              (rows (mk_bio_table true (rev (rows (flat_table 100))))) /\
  generate_forecast (flat_table 100) "All" 30 =
  generate_forecast (mk_bio_table true (rev (rows (flat_table 100)))) "All" 30.
Proof.
  split; [reflexivity|]. split; [apply Permutation_rev|].
  apply (forecast_row_order_independent (flat_table 100)
           (mk_bio_table true (rev (rows (flat_table 100)))) "All" 30);
    [reflexivity | apply Permutation_rev].
Defined.

(** ** Backtest Validator: kinds of result, lift, and the split *)


Lemma run_backtest_validation_shape (bio_df : bio_table) (enrol_df : list enrol_row)
    (is_valid : bool) (stressed normal lift : fl) :
  run_backtest_validation bio_df enrol_df =
    Ok (ValidationResult is_valid stressed normal lift) ->
  is_valid = fgt stressed normal /\
  lift = if fgt normal zero then fdiv stressed normal else one.
Proof.
  unfold run_backtest_validation.
  destruct (has_date bio_df); cbn [negb]; [|discriminate].
  cbv zeta.
  destruct (firstn _ _) as [|r1 t1]; [discriminate|].
  destruct (skipn _ _) as [|r2 t2]; [discriminate|].
  rewrite calculate_district_metrics_eq by (left; discriminate).
  cbn [bind]. intros H. injection H as <- <- <- <-. split; reflexivity.
Qed.

Lemma lift_above_one (s n : fl) :
  fgt n zero = true -> fgt s n = true -> fgt (fdiv s n) one = true.
Proof.
  unfold fgt. destruct n as [b| | |]; try discriminate.
  - intros Hb. apply flt_Fin in Hb.
    assert (~ (b == 0)%Q) as Hnz by (intros E; rewrite E in Hb; apply (Qlt_irrefl 0), Hb).
    destruct s as [a| | |]; try discriminate.
    + intros Hab. apply flt_Fin in Hab. rewrite fdiv_Fin by exact Hnz.
      apply flt_Fin. rewrite Qred_correct. apply Qlt_shift_div_l; [exact Hb|].
      rewrite Qmult_1_l. exact Hab.
    + intros _. cbn [fdiv].
      assert (Qle_bool 0 b = true) as -> by (apply Qle_bool_iff, Qlt_le_weak, Hb).
      reflexivity.
  - intros _. destruct s; discriminate.
Qed.

Lemma lift_not_above_one (s n : fl) :
  fgt n zero = true -> fgt s n = false -> fgt (fdiv s n) one = false.
Proof.
  unfold fgt. destruct n as [b| | |]; try discriminate.
  - intros Hb. apply flt_Fin in Hb.
    assert (~ (b == 0)%Q) as Hnz by (intros E; rewrite E in Hb; apply (Qlt_irrefl 0), Hb).
    destruct s as [a| | |]; try discriminate; try reflexivity.
    + intros Hab. apply Qltb_ge in Hab. rewrite fdiv_Fin by exact Hnz.
      apply Qltb_ge. rewrite Qred_correct. apply Qle_shift_div_r; [exact Hb|].
      rewrite Qmult_1_l. exact Hab.
    + intros _. cbn [fdiv].
      assert (Qle_bool 0 b = true) as -> by (apply Qle_bool_iff, Qlt_le_weak, Hb).
      reflexivity.
  - intros _ _. destruct s; reflexivity.
Qed.

(** X17.  In a [ValidationResult], [lift] agrees with [is_valid] whenever
    the normal mean is positive ([lift > 1] exactly when [is_valid]), and
    [lift] is [1.0] whenever the normal mean is not positive -- also when
    [is_valid] is [True] because the normal districts had no volume at
    all. *)
Theorem backtest_lift_consistent (bio_df : bio_table) (enrol_df : list enrol_row)
    (is_valid : bool) (stressed normal lift : fl) :
  run_backtest_validation bio_df enrol_df =
    Ok (ValidationResult is_valid stressed normal lift) ->
  (fgt normal zero = true -> fgt lift one = is_valid) /\
  (fgt normal zero = false -> lift = one).
Proof.
  intros H. apply run_backtest_validation_shape in H. destruct H as [-> ->].
  split; intros Hn; rewrite Hn; [|reflexivity].
  destruct (fgt stressed normal) eqn:E.
  - apply lift_above_one; assumption.
  - apply lift_not_above_one; assumption.
Qed.

Lemma backtest_lift_consistent_witness :
  run_backtest_validation ex_history ex_enrol =
    Ok (ValidationResult false (Fin 90) (Fin 180) (Fin (1 # 2))) /\
  (fgt (Fin 180) zero = true -> fgt (Fin (1 # 2)) one = false) /\
  (fgt (Fin 180) zero = false -> Fin (1 # 2) = one).
Proof.
  split; [reflexivity|].
  apply (backtest_lift_consistent ex_history ex_enrol false (Fin 90) (Fin 180)
           (Fin (1 # 2))).
  reflexivity.
Defined.

Lemma date_leb_total (a b : option Z) : date_leb a b = true \/ date_leb b a = true.
Proof.
  destruct a as [x|], b as [y|]; cbn; try (left; reflexivity); try (right; reflexivity).
  apply Zleb_total.
Qed.

Lemma date_leb_trans (a b c : option Z) :
  date_leb a b = true -> date_leb b c = true -> date_leb a c = true.
Proof.
  destruct a as [x|], b as [y|], c as [z|]; cbn; try discriminate; try reflexivity.
  apply Zleb_trans.
Qed.

Lemma StronglySorted_app_cross {A : Type} (R : A -> A -> Prop) (l1 l2 : list A) :
  StronglySorted R (l1 ++ l2) ->
  forall x y, In x l1 -> In y l2 -> R x y.
Proof.
  induction l1 as [|a l1 IH]; intros Hs x y Hx Hy; [destruct Hx|].
  cbn [app] in Hs. inversion Hs as [|? ? Hs' Hall]; subst.
  destruct Hx as [<-|Hx].
  - rewrite Forall_forall in Hall. apply Hall, in_or_app. right. exact Hy.
  - apply IH; assumption.
Qed.

(** X18.  The split of the Backtest Validator: the two halves together are
    the rows of the table, the first half has [len // 2] rows, no row of
    the first half is dated later than a row of the second half, and rows
    without a date come last (an undated row in the first half means the
    second half has undated rows only). *)
Theorem backtest_split_ordered (bio_df : bio_table) :
  Permutation (backtest_t1 bio_df ++ backtest_t2 bio_df) (rows bio_df) /\
  List.length (backtest_t1 bio_df) = (List.length (rows bio_df) / 2)%nat /\
  forall r1 r2, In r1 (backtest_t1 bio_df) -> In r2 (backtest_t2 bio_df) ->
    match date r1, date r2 with
    | Some d1, Some d2 => d1 <= d2
    | None, Some _ => False
    | _, None => True
    end.
Proof.
  unfold backtest_t1, backtest_t2. split; [|split].
  - rewrite firstn_skipn. apply sort_by_perm.
  - rewrite length_firstn. unfold sort_values_date. rewrite sort_by_length.
    apply Nat.min_l. apply Nat.Div0.div_le_upper_bound. lia.
  - intros r1 r2 H1 H2.
    pose proof (sort_by_ordered (fun a b => date_leb (date a) (date b))
                  (fun a b => date_leb_total (date a) (date b))
                  (fun a b c => date_leb_trans (date a) (date b) (date c))
                  (rows bio_df)) as Hs.
    fold (sort_values_date (rows bio_df)) in Hs.
    rewrite <- (firstn_skipn (List.length (rows bio_df) / 2)
                  (sort_values_date (rows bio_df))) in Hs.
    pose proof (StronglySorted_app_cross _ _ _ Hs r1 r2 H1 H2) as Hle.
    cbv beta in Hle. unfold date_leb in Hle.
    destruct (date r1), (date r2); try exact I; try discriminate.
    apply Z.leb_le, Hle.
Qed.

(** ** Feature Deriver: derived columns, errors, repeated calls *)

Module FeatureFacts.
Import Frame.
Import FrameFacts.

Lemma derive_keeps (df : ref) (c1 c2 total part share : string) (h : heap)
    (r : ref) (c : string) :
  c <> total -> c <> share ->
  find_col c (columns (fst (derive df c1 c2 total part share h) r))
    = find_col c (columns (h r)) /\
  index_len (fst (derive df c1 c2 total part share h) r) = index_len (h r).
Proof.
  intros Ht Hs. unfold derive, mbind, getitem, lift, setitem.
  repeat match goal with
         | |- context [match ?x with _ => _ end] => destruct x; cbn [fst]
         end;
    unfold upd; repeat (destruct (Nat.eq_dec _ _); subst);
    cbn [columns index_len];
    rewrite ?find_col_set_other by assumption;
    cbn [columns index_len];
    rewrite ?find_col_set_other by assumption;
    split; reflexivity.
Qed.

(** X23.  Whatever the frames contain and whether or not the call raises,
    the Feature Deriver changes no row count and no column other than the
    four it derives ([total_biometric_updates], [child_teen_update_share],
    [total_demographic_updates], [adult_update_share]): every other column
    of every frame is found afterwards as it was before. *)
Theorem feature_engineering_keeps_columns (bio_df demo_df enrol_df : ref) (h : heap)
    (r : ref) (c : string) :
  ~ In c ["total_biometric_updates"; "child_teen_update_share";
          "total_demographic_updates"; "adult_update_share"]%string ->
  let h' := fst (feature_engineering bio_df demo_df enrol_df h) in
  find_col c (columns (h' r)) = find_col c (columns (h r)) /\
  index_len (h' r) = index_len (h r).
Proof.
  intros Hc. cbv zeta.
  assert (c <> "total_biometric_updates" /\ c <> "child_teen_update_share" /\
          c <> "total_demographic_updates" /\ c <> "adult_update_share")%string
    as [H1 [H2 [H3 H4]]].
  { repeat split; intros ->; apply Hc; cbn; tauto. }
  unfold feature_engineering, mbind, is_empty, ret.
  set (bio_step := if negb (df_empty (h bio_df)) then _ else _).
  assert (find_col c (columns (fst (bio_step h) r)) = find_col c (columns (h r)) /\
          index_len (fst (bio_step h) r) = index_len (h r)) as [Hs1 Hl1].
  { unfold bio_step. destruct (df_empty (h bio_df)); cbn [negb].
    - split; reflexivity.
    - apply derive_keeps; assumption. }
  destruct (bio_step h) as [h1 [[]|e]]; cbn [fst] in *; [|split; assumption].
  destruct (df_empty (h1 demo_df)); cbn [negb fst]; [split; assumption|].
  destruct (derive_keeps demo_df "demo_age_5_17" "demo_age_17_"
              "total_demographic_updates" "demo_age_17_" "adult_update_share"
              h1 r c H3 H4) as [Hs2 Hl2].
  destruct (derive demo_df _ _ _ _ _ h1) as [h2 [[]|e]]; cbn [fst] in *;
    rewrite Hs2, Hl2; split; assumption.
Qed.

Lemma feature_engineering_keeps_columns_witness :
  ~ In "bio_age_5_17"%string
       ["total_biometric_updates"; "child_teen_update_share";
        "total_demographic_updates"; "adult_update_share"]%string /\
  let h' := fst (feature_engineering 0%nat 1%nat 2%nat ex_heap) in
  find_col "bio_age_5_17" (columns (h' 0%nat))
    = find_col "bio_age_5_17" (columns (ex_heap 0%nat)) /\
  index_len (h' 0%nat) = index_len (ex_heap 0%nat).
Proof.
  assert (~ In "bio_age_5_17"%string
            ["total_biometric_updates"; "child_teen_update_share";
             "total_demographic_updates"; "adult_update_share"]%string) as Hn.
  { intros H. repeat (destruct H as [H|H]; [discriminate H|]). destruct H. }
  split; [exact Hn|].
  apply (feature_engineering_keeps_columns 0%nat 1%nat 2%nat ex_heap 0%nat
           "bio_age_5_17" Hn).
Defined.

(** X21.  When the biometric frame is not empty and lacks one of its two
    source columns, the call raises [KeyError] before any assignment: no
    frame is modified, the demographic frame included. *)
Theorem feature_engineering_missing_column (bio_df demo_df enrol_df : ref) (h : heap) :
  df_empty (h bio_df) = false ->
  find_col "bio_age_5_17" (columns (h bio_df)) = None \/
  find_col "bio_age_17_" (columns (h bio_df)) = None ->
  snd (feature_engineering bio_df demo_df enrol_df h) = Raise KeyError /\
  forall r, fst (feature_engineering bio_df demo_df enrol_df h) r = h r.
Proof.
  intros He Hmiss.
  unfold feature_engineering, mbind, is_empty, ret. rewrite He. cbn [negb].
  unfold derive, mbind, getitem, lift.
  destruct (find_col "bio_age_5_17" (columns (h bio_df))) as [x|];
    [|split; reflexivity].
  destruct Hmiss as [Hm|Hm]; [discriminate|]. rewrite Hm. split; reflexivity.
Qed.

End FeatureFacts.

(** A heap whose biometric frame (reference 0) has rows but no
    [bio_age_17_] column. *)
Lemma feature_engineering_missing_column_witness :
  let h : Frame.heap :=
    fun _ => Frame.mk_frame 1 [("bio_age_5_17"%string, Frame.SInt [1])] in
  Frame.df_empty (h 0%nat) = false /\
  (Frame.find_col "bio_age_5_17" (Frame.columns (h 0%nat)) = None \/
   Frame.find_col "bio_age_17_" (Frame.columns (h 0%nat)) = None) /\
  snd (Frame.feature_engineering 0%nat 1%nat 2%nat h) = Raise KeyError /\
  forall r, fst (Frame.feature_engineering 0%nat 1%nat 2%nat h) r = h r.
Proof.
  cbv zeta. split; [reflexivity|]. split; [right; reflexivity|].
  apply (FeatureFacts.feature_engineering_missing_column 0%nat 1%nat 2%nat
           (fun _ => Frame.mk_frame 1 [("bio_age_5_17"%string, Frame.SInt [1])]));
    [reflexivity | right; reflexivity].
Defined.

Module DerivedColumns.
Import Frame.
Import FrameFacts.

Lemma derive_counters (df : ref) (c1 c2 total part share : string) (h : heap)
    (l1 l2 lp : list Z) :
  has_counters (h df) c1 c2 l1 l2 ->
  find_col part (columns (h df)) = Some (SInt lp) ->
  part <> total ->
  snd (derive df c1 c2 total part share h) = Ok tt /\
  fst (derive df c1 c2 total part share h) df = with_derived (h df) total share l1 l2 lp.
Proof.
  intros [_ [H1 H2]] Hp Hne. apply derive_int; assumption.
Qed.

Lemma set_col_nonempty (c : string) (s : series) (cols : list (string * series)) :
  set_col c s cols <> [].
Proof.
  destruct cols as [|[c' s'] cols]; simpl; [discriminate|].
  destruct (string_dec c c'); discriminate.
Qed.

Lemma with_derived_nonempty (df : DataFrame) (total share : string) (l1 l2 lp : list Z) :
  df_empty df = false -> df_empty (with_derived df total share l1 l2 lp) = false.
Proof.
  unfold df_empty, with_derived. cbn [index_len columns]. intros H.
  apply orb_false_iff in H. destruct H as [H _]. rewrite H. cbn [orb].
  destruct (set_col share _ _) eqn:E; [|reflexivity].
  exfalso. eapply set_col_nonempty, E.
Qed.

Lemma set_col_present (c : string) (s : series) (cols : list (string * series)) :
  find_col c cols = Some s -> set_col c s cols = cols.
Proof.
  induction cols as [|[c' s'] cols IH]; simpl; [discriminate|].
  destruct (string_dec c c') as [->|Hne].
  - intros [= ->]. reflexivity.
  - intros H. rewrite (IH H). reflexivity.
Qed.

(** Deriving again from the same counters changes nothing. *)
Lemma with_derived_again (df : DataFrame) (total share : string) (l1 l2 lp : list Z) :
  total <> share ->
  with_derived (with_derived df total share l1 l2 lp) total share l1 l2 lp
  = with_derived df total share l1 l2 lp.
Proof.
  intros Hne. unfold with_derived. cbn [index_len columns]. f_equal.
  rewrite (set_col_present total).
  - apply set_col_present, find_col_set_same.
  - rewrite find_col_set_other by exact Hne. apply find_col_set_same.
Qed.

Lemma with_derived_counters (df : DataFrame) (total share c1 c2 : string)
    (l1 l2 lp : list Z) :
  c1 <> total -> c1 <> share -> c2 <> total -> c2 <> share ->
  has_counters df c1 c2 l1 l2 ->
  has_counters (with_derived df total share l1 l2 lp) c1 c2 l1 l2.
Proof.
  intros H1 H2 H3 H4 [He [Hc1 Hc2]]. split; [apply with_derived_nonempty, He|].
  unfold with_derived. cbn [columns].
  rewrite !find_col_set_other by assumption. split; assumption.
Qed.

(** The call in closed form, for frames that hold their counters. *)
Lemma feature_engineering_counters (bio_df demo_df enrol_df : ref) (h : heap)
    (a1 a2 d1 d2 : list Z) :
  bio_df <> demo_df ->
  has_counters (h bio_df) "bio_age_5_17" "bio_age_17_" a1 a2 ->
  has_counters (h demo_df) "demo_age_5_17" "demo_age_17_" d1 d2 ->
  let h' := fst (feature_engineering bio_df demo_df enrol_df h) in
  snd (feature_engineering bio_df demo_df enrol_df h) = Ok (bio_df, demo_df, enrol_df) /\
  h' bio_df = with_derived (h bio_df) "total_biometric_updates"
                "child_teen_update_share" a1 a2 a1 /\
  h' demo_df = with_derived (h demo_df) "total_demographic_updates"
                 "adult_update_share" d1 d2 d2 /\
  forall r, r <> bio_df -> r <> demo_df -> h' r = h r.
Proof.
  intros Hne Hb Hd. cbv zeta.
  destruct (derive_counters bio_df "bio_age_5_17" "bio_age_17_"
              "total_biometric_updates" "bio_age_5_17" "child_teen_update_share"
              h a1 a2 a1 Hb (proj1 (proj2 Hb)) ltac:(discriminate)) as [Hr1 Hh1].
  pose proof (fun r => derive_other bio_df "bio_age_5_17" "bio_age_17_"
                "total_biometric_updates" "bio_age_5_17" "child_teen_update_share"
                h r) as Ho1.
  unfold feature_engineering, mbind, is_empty, ret.
  rewrite (proj1 Hb). cbn [negb].
  destruct (derive bio_df "bio_age_5_17" "bio_age_17_" "total_biometric_updates"
              "bio_age_5_17" "child_teen_update_share" h) as [h1 res1].
  cbn [fst snd] in *. subst res1.
  assert (h1 demo_df = h demo_df) as Hd1 by (apply Ho1; congruence).
  assert (has_counters (h1 demo_df) "demo_age_5_17" "demo_age_17_" d1 d2) as Hd'
    by (rewrite Hd1; exact Hd).
  destruct (derive_counters demo_df "demo_age_5_17" "demo_age_17_"
              "total_demographic_updates" "demo_age_17_" "adult_update_share"
              h1 d1 d2 d2 Hd' (proj2 (proj2 Hd')) ltac:(discriminate)) as [Hr2 Hh2].
  pose proof (fun r => derive_other demo_df "demo_age_5_17" "demo_age_17_"
                "total_demographic_updates" "demo_age_17_" "adult_update_share"
                h1 r) as Ho2.
  rewrite (proj1 Hd'). cbn [negb].
  destruct (derive demo_df "demo_age_5_17" "demo_age_17_" "total_demographic_updates"
              "demo_age_17_" "adult_update_share" h1) as [h2 res2].
  cbn [fst snd] in *. subst res2. cbn [fst snd].
  split; [reflexivity|]. split; [|split].
  - rewrite (Ho2 bio_df Hne). exact Hh1.
  - rewrite Hh2, Hd1. reflexivity.
  - intros r Hrb Hrd. rewrite (Ho2 r Hrd). apply Ho1, Hrb.
Qed.


(** X22.  Calling the Feature Deriver a second time on the frames it has
    just derived changes nothing: the derived columns are recomputed from
    the untouched counters and assigned in place. *)
Theorem feature_engineering_idempotent (bio_df demo_df enrol_df : ref) (h : heap)
    (a1 a2 d1 d2 : list Z) :
  bio_df <> demo_df ->
  has_counters (h bio_df) "bio_age_5_17" "bio_age_17_" a1 a2 ->
  has_counters (h demo_df) "demo_age_5_17" "demo_age_17_" d1 d2 ->
  let h' := fst (feature_engineering bio_df demo_df enrol_df h) in
  snd (feature_engineering bio_df demo_df enrol_df h') = Ok (bio_df, demo_df, enrol_df) /\
  forall r, fst (feature_engineering bio_df demo_df enrol_df h') r = h' r.
Proof.
  intros Hne Hb Hd. cbv zeta.
  destruct (feature_engineering_counters bio_df demo_df enrol_df h a1 a2 d1 d2
              Hne Hb Hd) as [_ [Hb1 [Hd1 Ho1]]].
  set (h' := fst (feature_engineering bio_df demo_df enrol_df h)) in *.
  assert (has_counters (h' bio_df) "bio_age_5_17" "bio_age_17_" a1 a2) as Hb'.
  { rewrite Hb1. apply with_derived_counters; try discriminate. exact Hb. }
  assert (has_counters (h' demo_df) "demo_age_5_17" "demo_age_17_" d1 d2) as Hd'.
  { rewrite Hd1. apply with_derived_counters; try discriminate. exact Hd. }
  destruct (feature_engineering_counters bio_df demo_df enrol_df h' a1 a2 d1 d2
              Hne Hb' Hd') as [Hres [Hb2 [Hd2 Ho2]]].
  split; [exact Hres|]. intros r.
  destruct (Nat.eq_dec r bio_df) as [->|Hrb].
  - rewrite Hb2, Hb1. apply with_derived_again. discriminate.
  - destruct (Nat.eq_dec r demo_df) as [->|Hrd].
    + rewrite Hd2, Hd1. apply with_derived_again. discriminate.
    + apply Ho2; assumption.
Qed.

End DerivedColumns.

Lemma ex_heap_full_bio :
  has_counters (ex_heap_full 0%nat) "bio_age_5_17" "bio_age_17_" [1; 0] [3; 0].
Proof. repeat split. Qed.

Lemma ex_heap_full_demo :
  has_counters (ex_heap_full 1%nat) "demo_age_5_17" "demo_age_17_" [2; 0] [6; 1].
Proof. repeat split. Qed.


Lemma feature_engineering_idempotent_witness :
  0%nat <> 1%nat /\
  has_counters (ex_heap_full 0%nat) "bio_age_5_17" "bio_age_17_" [1; 0] [3; 0] /\
  has_counters (ex_heap_full 1%nat) "demo_age_5_17" "demo_age_17_" [2; 0] [6; 1] /\
  let h' := fst (Frame.feature_engineering 0%nat 1%nat 2%nat ex_heap_full) in
  snd (Frame.feature_engineering 0%nat 1%nat 2%nat h') = Ok (0%nat, 1%nat, 2%nat) /\
  forall r, fst (Frame.feature_engineering 0%nat 1%nat 2%nat h') r = h' r.
Proof.
  split; [discriminate|]. split; [exact ex_heap_full_bio|].
  split; [exact ex_heap_full_demo|].
  apply (DerivedColumns.feature_engineering_idempotent 0%nat 1%nat 2%nat ex_heap_full
           [1; 0] [3; 0] [2; 0] [6; 1]);
    [discriminate | exact ex_heap_full_bio | exact ex_heap_full_demo].
Defined.

(** *** The share columns *)






(** ** District Metrics Engine: independence of the row order *)

Lemma string_leb_trans (a b c : string) :
  String.leb a b = true -> String.leb b c = true -> String.leb a c = true.
Proof.
  unfold String.leb. revert b c.
  induction a as [|ca a IH]; intros [|cb b] [|cc c]; simpl; try congruence.
  unfold Ascii.compare.
  set (x := N_of_ascii ca). set (y := N_of_ascii cb). set (z := N_of_ascii cc).
  destruct (N.compare_spec x y) as [Exy|Lxy|Gxy];
    destruct (N.compare_spec y z) as [Eyz|Lyz|Gyz];
    destruct (N.compare_spec x z) as [Exz|Lxz|Gxz];
    try congruence; try lia.
  apply IH.
Qed.

Lemma key_leb_total (a b : key) : key_leb a b = true \/ key_leb b a = true.
Proof.
  unfold key_leb. destruct a as [s1 d1], b as [s2 d2]. cbn [fst snd].
  destruct (string_dec s1 s2) as [->|Hne].
  - destruct (string_dec s2 s2); [|congruence]. apply String.leb_total.
  - destruct (string_dec s2 s1); [congruence|]. apply String.leb_total.
Qed.

Lemma key_leb_antisym (a b : key) :
  key_leb a b = true -> key_leb b a = true -> a = b.
Proof.
  unfold key_leb. destruct a as [s1 d1], b as [s2 d2]. cbn [fst snd].
  destruct (string_dec s1 s2) as [->|Hne].
  - destruct (string_dec s2 s2); [|congruence].
    intros H1 H2. f_equal. apply String.leb_antisym; assumption.
  - destruct (string_dec s2 s1); [congruence|].
    intros H1 H2. exfalso. apply Hne. apply String.leb_antisym; assumption.
Qed.

Lemma key_leb_trans (a b c : key) :
  key_leb a b = true -> key_leb b c = true -> key_leb a c = true.
Proof.
  unfold key_leb. destruct a as [s1 d1], b as [s2 d2], c as [s3 d3]. cbn [fst snd].
  destruct (string_dec s1 s2) as [->|H12], (string_dec s2 s3) as [->|H23].
  - destruct (string_dec s3 s3); [|congruence]. apply string_leb_trans.
  - destruct (string_dec s2 s3); [congruence|]. intros _ H. exact H.
  - destruct (string_dec s1 s3); [congruence|]. intros H _. exact H.
  - intros H1 H2. destruct (string_dec s1 s3) as [->|H13].
    + exfalso. apply H12. apply String.leb_antisym; assumption.
    + eapply string_leb_trans; eassumption.
Qed.

Lemma group_keys_perm {R : Type} (kf : R -> key) (l1 l2 : list R) :
  Permutation l1 l2 -> group_keys kf l1 = group_keys kf l2.
Proof.
  intros Hp. unfold group_keys.
  apply (sort_by_perm_eq key_leb key_leb_total key_leb_trans _ _ key_leb_antisym).
  apply NoDup_Permutation; try apply NoDup_nodup.
  intros k. rewrite !nodup_In. split; apply Permutation_in.
  - apply Permutation_map, Hp.
  - apply Permutation_map, Permutation_sym, Hp.
Qed.

Lemma bio_agg_perm (l1 l2 : list bio_row) :
  Permutation l1 l2 -> bio_agg l1 = bio_agg l2.
Proof.
  intros Hp. rewrite !bio_agg_eq, (group_keys_perm bio_key _ _ Hp).
  apply map_ext. intros k. f_equal.
  apply updates_sum_perm, group_rows_perm, Hp.
Qed.

Lemma enrolment_sum_perm (e1 e2 : list enrol_row) (k : key) :
  Permutation e1 e2 -> enrolment_sum e1 k = enrolment_sum e2 k.
Proof.
  intros Hp. unfold enrolment_sum.
  pose proof (filter_perm (fun r => key_eqb (enrol_key r) k) _ _ Hp) as Hf.
  destruct (filter _ e1) as [|r1 o1] eqn:E1, (filter _ e2) as [|r2 o2] eqn:E2.
  - reflexivity.
  - apply Permutation_nil in Hf. discriminate.
  - apply Permutation_sym, Permutation_nil in Hf. discriminate.
  - f_equal.
    rewrite (zsum_perm _ _ (Permutation_map age_0_5 Hf)),
            (zsum_perm _ _ (Permutation_map age_5_17 Hf)),
            (zsum_perm _ _ (Permutation_map age_18_greater Hf)).
    reflexivity.
Qed.

Lemma metric_rows_perm (b1 b2 : bio_table) (e1 e2 : list enrol_row) :
  has_date b1 = has_date b2 ->
  Permutation (rows b1) (rows b2) -> Permutation e1 e2 ->
  metric_rows b1 e1 = metric_rows b2 e2.
Proof.
  intros Hd Hb He. unfold metric_rows. rewrite (bio_agg_perm _ _ Hb).
  apply map_ext. intros a. f_equal; [f_equal|].
  - unfold enrolment_for. rewrite !enrol_agg_lookup, (enrolment_sum_perm _ _ _ He).
    reflexivity.
  - unfold growth_for. rewrite Hd. destruct (has_date b2); [|reflexivity].
    rewrite (mean_date_perm _ _ Hb). apply growth_of_perm, group_rows_perm, Hb.
Qed.

(** X24.  The District Metrics Engine does not depend on the order of the
    rows of either table: the same rows in a different order give the same
    frame, row for row (or the same exception). *)
Theorem metrics_row_order_independent (b1 b2 : bio_table) (e1 e2 : list enrol_row) :
  has_date b1 = has_date b2 ->
  Permutation (rows b1) (rows b2) -> Permutation e1 e2 ->
  calculate_district_metrics b1 e1 = calculate_district_metrics b2 e2.
Proof.
  intros Hd Hb He.
  destruct (rows b1) as [|r1 l1] eqn:E1.
  - apply Permutation_nil in Hb.
    destruct b1 as [d1 rs1], b2 as [d2 rs2]. cbn [rows has_date] in *. subst.
    destruct d2.
    + rewrite !calculate_district_metrics_empty_dated. reflexivity.
    + rewrite !calculate_district_metrics_eq by (right; reflexivity).
      rewrite (metric_rows_perm _ (mk_bio_table false []) e1 e2 eq_refl
                 (Permutation_refl _) He).
      reflexivity.
  - rewrite <- E1 in Hb.
    assert (rows b1 <> []) as Hn1 by (rewrite E1; discriminate).
    assert (rows b2 <> []) as Hn2.
    { intros E. rewrite E in Hb. apply Permutation_sym, Permutation_nil in Hb.
      contradiction. }
    rewrite !calculate_district_metrics_eq by (left; assumption).
    rewrite (metric_rows_perm b1 b2 e1 e2 Hd Hb He). reflexivity.
Qed.

Lemma metrics_row_order_independent_witness :
  has_date ex_bio = has_date (mk_bio_table true (rev (rows ex_bio))) /\
  Permutation (rows ex_bio) (rows (mk_bio_table true (rev (rows ex_bio)))) /\
  Permutation ex_enrol_zero (rev ex_enrol_zero) /\
  calculate_district_metrics ex_bio ex_enrol_zero =
  calculate_district_metrics (mk_bio_table true (rev (rows ex_bio))) (rev ex_enrol_zero).
Proof.
  split; [reflexivity|]. split; [apply Permutation_rev|].
  split; [apply Permutation_rev|].
  apply (metrics_row_order_independent ex_bio
           (mk_bio_table true (rev (rows ex_bio))) ex_enrol_zero (rev ex_enrol_zero));
    [reflexivity | apply Permutation_rev | apply Permutation_rev].
Defined.

(** ** Record cleaning *)

Module CleanFacts.
Import Frame.
Import FrameFacts.
Import Clean.

Example clean_data_example :
  let out := clean_data ex_to_datetime 0%nat ex_raw in
  snd out = Ok 0%nat /\
  columns (fst out 0%nat) =
    [("date"%string, SDate [None]); ("state"%string, SObj ["S"%string]);
     ("bio_age_5_17"%string, SInt [4])].
Proof. vm_compute. split; reflexivity. Qed.

Lemma is_space_lower (c : ascii) : is_space (lower_char c) = is_space c.
Proof. destruct c as [[] [] [] [] [] [] [] []]; reflexivity. Qed.

Lemma lower_char_idem (c : ascii) : lower_char (lower_char c) = lower_char c.
Proof. destruct c as [[] [] [] [] [] [] [] []]; reflexivity. Qed.

Lemma lower_idem (s : string) : lower (lower s) = lower s.
Proof.
  induction s as [|c s IH]; simpl; [reflexivity|].
  rewrite lower_char_idem, IH. reflexivity.
Qed.

Lemma lstrip_lower (s : string) : lstrip (lower s) = lower (lstrip s).
Proof.
  induction s as [|c s IH]; simpl; [reflexivity|].
  rewrite is_space_lower. destruct (is_space c); [exact IH | reflexivity].
Qed.

Lemma rstrip_lower (s : string) : rstrip (lower s) = lower (rstrip s).
Proof.
  induction s as [|c s IH]; simpl; [reflexivity|].
  rewrite IH, is_space_lower.
  destruct (rstrip s); simpl; [destruct (is_space c)|]; reflexivity.
Qed.

Lemma rstrip_idem (s : string) : rstrip (rstrip s) = rstrip s.
Proof.
  induction s as [|c s IH]; simpl; [reflexivity|].
  destruct (rstrip s) as [|c' t] eqn:E.
  - destruct (is_space c) eqn:Ec; simpl; [reflexivity|]. rewrite Ec. reflexivity.
  - simpl in *. rewrite IH. reflexivity.
Qed.

(** A string without trailing whitespace keeps none after its head is
    dropped. *)
Lemma rstrip_fixed_tail (c : ascii) (s : string) :
  rstrip (String c s) = String c s -> rstrip s = s.
Proof.
  simpl. destruct (rstrip s) as [|c' t] eqn:E.
  - destruct (is_space c); [discriminate|]. intros [= <-]. reflexivity.
  - intros [= <-]. reflexivity.
Qed.

Lemma rstrip_lstrip_fixed (s : string) : rstrip s = s -> rstrip (lstrip s) = lstrip s.
Proof.
  induction s as [|c s IH]; intros H; [reflexivity|].
  cbn [lstrip]. destruct (is_space c); [|exact H].
  apply IH. eapply rstrip_fixed_tail, H.
Qed.

Lemma lstrip_idem (s : string) : lstrip (lstrip s) = lstrip s.
Proof.
  induction s as [|c s IH]; [reflexivity|].
  cbn [lstrip]. destruct (is_space c) eqn:E; [exact IH|].
  cbn [lstrip]. rewrite E. reflexivity.
Qed.

Lemma strip_idem (s : string) : strip (strip s) = strip s.
Proof.
  unfold strip.
  rewrite (rstrip_lstrip_fixed (rstrip s) (rstrip_idem s)). apply lstrip_idem.
Qed.

Lemma strip_lower (s : string) : strip (lower s) = lower (strip s).
Proof. unfold strip. rewrite rstrip_lower, lstrip_lower. reflexivity. Qed.

Lemma normalize_name_idem (c : string) :
  normalize_name (normalize_name c) = normalize_name c.
Proof.
  unfold normalize_name. rewrite strip_lower, strip_idem, lower_idem. reflexivity.
Qed.

Section CleanDataFacts.
Variable to_datetime : series -> result series.

Lemma set_col_relates (c : string) (s : series) (cols : list (string * series)) :
  find_col c cols <> None ->
  Forall2 (fun old new => fst new = fst old /\ (fst new <> c -> snd new = snd old))
          cols (set_col c s cols).
Proof.
  induction cols as [|[c' s'] cols IH]; simpl; intros H; [contradiction|].
  destruct (string_dec c c') as [->|Hne].
  - constructor.
    + split; [reflexivity|]. cbn. intros Hn. contradiction.
    + clear. induction cols as [|p cols IH]; constructor; [split; reflexivity | exact IH].
  - constructor; [split; reflexivity | apply IH, H].
Qed.

Lemma rename_relates (cols : list (string * series)) :
  Forall2 (fun old new => fst new = normalize_name (fst old) /\ snd new = snd old)
          cols (map (fun p => (normalize_name (fst p), snd p)) cols).
Proof.
  induction cols as [|p cols IH]; simpl; constructor; [split; reflexivity | exact IH].
Qed.

Lemma Forall2_compose {A : Type} (R S T : A -> A -> Prop) (l1 l2 l3 : list A) :
  (forall a b c, R a b -> S b c -> T a c) ->
  Forall2 R l1 l2 -> Forall2 S l2 l3 -> Forall2 T l1 l3.
Proof.
  intros Hrs H12. revert l3.
  induction H12 as [|a b l1 l2 Hab H12 IH]; intros l3 H23;
    inversion H23; subst; constructor; eauto.
Qed.

Lemma count_col_find (c : string) (cols : list (string * series)) :
  count_col c cols <> 0%nat -> find_col c cols <> None.
Proof.
  unfold count_col. induction cols as [|[c' s'] cols IH]; simpl; [congruence|].
  destruct (string_dec c' c) as [->|Hne].
  - destruct (string_dec c c); [discriminate | congruence].
  - destruct (string_dec c c'); [congruence|]. exact IH.
Qed.

(** What a call on a frame with rows does, case by case. *)
Lemma clean_data_cases (df : ref) (h : heap) :
  df_empty (h df) = false ->
  let renamed := rename_columns (h df) in
  let h' := fst (clean_data to_datetime df h) in
  let res := snd (clean_data to_datetime df h) in
  (forall r, r <> df -> h' r = h r) /\
  match count_col "date" (columns renamed) with
  | O => res = Ok df /\ h' df = renamed
  | S O =>
      exists s, find_col "date" (columns renamed) = Some s /\
        match to_datetime s with
        | Ok s' => res = Ok df /\
                   h' df = mk_frame (index_len renamed)
                             (set_col "date" s' (columns renamed))
        | Raise e => res = Raise e /\ h' df = renamed
        end
  | _ => res = Raise ValueError /\ h' df = renamed
  end.
Proof.
  intros He. cbv zeta.
  unfold clean_data, mbind, is_empty, ret, lift, getitem, setitem.
  cbv beta. rewrite He. cbv beta iota. rewrite !upd_same.
  pose proof (count_col_find "date" (columns (rename_columns (h df)))) as Hfind.
  destruct (count_col "date" (columns (rename_columns (h df)))) as [|[|n]];
    cbv beta iota; rewrite ?upd_same.
  - cbn [fst snd]. rewrite upd_same. split; [|split; reflexivity].
    intros r Hr. apply upd_other, Hr.
  - destruct (find_col "date" (columns (rename_columns (h df)))) as [s|] eqn:Ef;
      [|exfalso; apply Hfind; [discriminate | reflexivity]].
    destruct (to_datetime s) as [s'|e] eqn:Et; cbn [fst snd].
    + split.
      * intros r Hr. rewrite !(upd_other _ df r) by exact Hr. reflexivity.
      * exists s. split; [reflexivity|]. rewrite Et, !upd_same. split; reflexivity.
    + split.
      * intros r Hr. apply upd_other, Hr.
      * exists s. split; [reflexivity|]. rewrite Et, upd_same. split; reflexivity.
  - cbn [fst snd]. rewrite upd_same. split; [|split; reflexivity].
    intros r Hr. apply upd_other, Hr.
Qed.

Lemma clean_data_columns (df : ref) (h : heap) :
  df_empty (h df) = false ->
  let h' := fst (clean_data to_datetime df h) in
  index_len (h' df) = index_len (h df) /\
  Forall2 (fun old new => fst new = normalize_name (fst old) /\
                          (fst new <> "date"%string -> snd new = snd old))
          (columns (h df)) (columns (h' df)).
Proof.
  intros He. cbv zeta.
  destruct (clean_data_cases df h He) as [_ Hcases]. cbv zeta in Hcases.
  assert (Forall2 (fun old new => fst new = normalize_name (fst old) /\
                                  (fst new <> "date"%string -> snd new = snd old))
            (columns (h df)) (columns (rename_columns (h df)))) as Hren.
  { eapply Forall2_impl; [|apply rename_relates].
    intros a b [H1 H2]. split; [exact H1 | intros _; exact H2]. }
  pose proof (count_col_find "date" (columns (rename_columns (h df)))) as Hfind.
  destruct (count_col "date" (columns (rename_columns (h df)))) as [|[|n]].
  - destruct Hcases as [_ ->]. split; [reflexivity | exact Hren].
  - destruct Hcases as [s [Hs Hcases]].
    destruct (to_datetime s) as [s'|e]; destruct Hcases as [_ ->];
      [|split; [reflexivity | exact Hren]].
    split; [reflexivity|]. cbn [columns].
    eapply Forall2_compose; [|apply rename_relates|apply set_col_relates].
    + intros a b c [H1 H2] [H3 H4]. split; [congruence|].
      intros Hn. rewrite (H4 Hn). exact H2.
    + rewrite Hs. discriminate.
  - destruct Hcases as [_ ->]. split; [reflexivity | exact Hren].
Qed.

(** X25.  [clean_data] returns an empty frame exactly as it was, column
    names included.  On a frame with rows it touches that frame only, keeps
    the number of rows and the number and order of the columns, gives
    every column the stripped, lower-cased form of its name, and keeps the
    data of every column that is not named [date] afterwards; when it
    returns, it returns the frame it was given. *)
Theorem clean_data_renames (df : ref) (h : heap) :
  (df_empty (h df) = true -> clean_data to_datetime df h = (h, Ok df)) /\
  (df_empty (h df) = false ->
   let h' := fst (clean_data to_datetime df h) in
   (forall r, r <> df -> h' r = h r) /\
   index_len (h' df) = index_len (h df) /\
   Forall2 (fun old new => fst new = normalize_name (fst old) /\
                           (fst new <> "date"%string -> snd new = snd old))
           (columns (h df)) (columns (h' df)) /\
   forall out, snd (clean_data to_datetime df h) = Ok out -> out = df).
Proof.
  split.
  - intros He. unfold clean_data, mbind, is_empty, ret. rewrite He. reflexivity.
  - intros He. cbv zeta.
    destruct (clean_data_cases df h He) as [Hother Hcases]. cbv zeta in Hcases.
    destruct (clean_data_columns df h He) as [Hlen Hcols].
    repeat split; try assumption.
    intros out Hout.
    destruct (count_col "date" (columns (rename_columns (h df)))) as [|[|n]].
    + destruct Hcases as [Hres _]. congruence.
    + destruct Hcases as [s [_ Hcases]].
      destruct (to_datetime s); destruct Hcases as [Hres _]; congruence.
    + destruct Hcases as [Hres _]. congruence.
Qed.

(** X26.  The [date] column of a frame with rows: when exactly one column
    is named [date] after renaming, it is replaced by its conversion (and
    an exception of the conversion is passed on); when none is, the call
    returns after renaming; when several are (say [Date] and [date ]), the
    call raises [ValueError], the columns being renamed already. *)
Theorem clean_data_date_column (df : ref) (h : heap) :
  df_empty (h df) = false ->
  let renamed := rename_columns (h df) in
  let h' := fst (clean_data to_datetime df h) in
  let res := snd (clean_data to_datetime df h) in
  match count_col "date" (columns renamed) with
  | O => res = Ok df /\ h' df = renamed
  | S O =>
      exists s, find_col "date" (columns renamed) = Some s /\
        match to_datetime s with
        | Ok s' => res = Ok df /\ find_col "date" (columns (h' df)) = Some s'
        | Raise e => res = Raise e /\ h' df = renamed
        end
  | _ => res = Raise ValueError /\ h' df = renamed
  end.
Proof.
  intros He. cbv zeta.
  destruct (clean_data_cases df h He) as [_ Hcases]. cbv zeta in Hcases.
  destruct (count_col "date" (columns (rename_columns (h df)))) as [|[|n]];
    try exact Hcases.
  destruct Hcases as [s [Hs Hcases]]. exists s. split; [exact Hs|].
  destruct (to_datetime s) as [s'|e]; [|exact Hcases].
  destruct Hcases as [Hres ->]. split; [exact Hres|].
  cbn [columns]. apply find_col_set_same.
Qed.

(** X27.  Cleaning is idempotent on the column names: a second call on a
    frame with rows that has been cleaned leaves every column name as the
    first call set it. *)
Theorem clean_data_names_idempotent (df : ref) (h : heap) :
  df_empty (h df) = false ->
  let h1 := fst (clean_data to_datetime df h) in
  let h2 := fst (clean_data to_datetime df h1) in
  map fst (columns (h2 df)) = map fst (columns (h1 df)).
Proof.
  intros He. cbv zeta.
  destruct (clean_data_columns df h He) as [Hlen1 Hcols1].
  set (h1 := fst (clean_data to_datetime df h)) in *.
  assert (df_empty (h1 df) = false) as He1.
  { unfold df_empty in *. rewrite Hlen1.
    apply orb_false_iff in He. destruct He as [-> He]. cbn [orb].
    destruct (columns (h df)) as [|p cols]; [discriminate|].
    inversion Hcols1; subst. reflexivity. }
  destruct (clean_data_columns df h1 He1) as [_ Hcols2].
  set (c1 := columns (h1 df)) in *.
  set (c2 := columns (fst (clean_data to_datetime df h1) df)) in *.
  clearbody c1 c2. clear - Hcols1 Hcols2.
  revert c2 Hcols2. induction Hcols1 as [|a b l1 l2 [Hab _] H12 IH];
    intros c2 Hcols2; inversion Hcols2 as [|? c ? l3 [Hbc _] H23]; subst;
    [reflexivity|].
  cbn [map]. f_equal; [|apply IH, H23].
  rewrite Hbc, Hab. apply normalize_name_idem.
Qed.

End CleanDataFacts.

End CleanFacts.

Lemma clean_data_date_column_witness :
  Frame.df_empty (ex_raw 0%nat) = false /\
  exists s,
    Frame.find_col "date" (Frame.columns (Clean.rename_columns (ex_raw 0%nat))) = Some s /\
    match ex_to_datetime s with
    | Ok s' =>
        snd (Clean.clean_data ex_to_datetime 0%nat ex_raw) = Ok 0%nat /\
        Frame.find_col "date"
          (Frame.columns (fst (Clean.clean_data ex_to_datetime 0%nat ex_raw) 0%nat))
          = Some s'
    | Raise e =>
        snd (Clean.clean_data ex_to_datetime 0%nat ex_raw) = Raise e /\
        fst (Clean.clean_data ex_to_datetime 0%nat ex_raw) 0%nat
          = Clean.rename_columns (ex_raw 0%nat)
    end.
Proof.
  split; [reflexivity|].
  exact (CleanFacts.clean_data_date_column ex_to_datetime 0%nat ex_raw eq_refl).
Defined.

Lemma clean_data_names_idempotent_witness :
  Frame.df_empty (ex_raw 0%nat) = false /\
  map fst (Frame.columns
             (fst (Clean.clean_data ex_to_datetime 0%nat
                     (fst (Clean.clean_data ex_to_datetime 0%nat ex_raw))) 0%nat))
  = map fst (Frame.columns (fst (Clean.clean_data ex_to_datetime 0%nat ex_raw) 0%nat)).
Proof.
  split; [reflexivity|].
  exact (CleanFacts.clean_data_names_idempotent ex_to_datetime 0%nat ex_raw eq_refl).
Defined.
